(** * Sunset score of the forecast card

    Verification of the scoring functions of
    [frontend/src/components/SunsetCard.tsx]: [toFiniteNumber], [clampScore]
    and [calculateSunsetScore].

    A JavaScript number is an IEEE 754 binary64 value.  It is modelled by
    [spec_float] of the standard library at precision 53 and maximal exponent
    1024, with the library's correctly rounded [SFadd], [SFsub] and [SFmul]
    for [+], [-] and [*].  Nothing is idealised to real arithmetic: the
    theorems below hold of the rounded computation. *)

From Stdlib Require Import ZArith Lia Bool List QArith.
From Stdlib Require Import Floats.SpecFloat.
From Stdlib Require Import Strings.String Strings.Ascii.
Local Open Scope Z_scope.

(** ** JavaScript numbers *)

Definition prec : Z := 53.
Definition emax : Z := 1024.

Definition number : Type := spec_float.

(** The number denoted by an integer literal. *)
Definition of_Z (z : Z) : number := binary_normalize prec emax z 0 false.

(** The number denoted by the decimal literal n/d (0.7 is [decimal 7 10]):
    the binary64 value nearest to the quotient. *)
Definition decimal (n d : Z) : number := SFdiv prec emax (of_Z n) (of_Z d).

Definition num_add : number -> number -> number := SFadd prec emax.
Definition num_sub : number -> number -> number := SFsub prec emax.
Definition num_mul : number -> number -> number := SFmul prec emax.

(** [x <= y] and [x < y]; both are false when an operand is NaN. *)
Definition num_le (x y : number) : bool := SFleb x y.
Definition num_lt (x y : number) : bool := SFltb x y.

Definition Number_isFinite (x : number) : bool :=
  match x with
  | S754_zero _ | S754_finite _ _ _ => true
  | _ => false
  end.

Definition Math_abs : number -> number := SFabs.

(** [Math.max] and [Math.min] of two arguments: NaN if either is NaN, and +0
    counts as larger than -0. *)
Definition Math_max (a b : number) : number :=
  match SFcompare a b with
  | None => S754_nan
  | Some Lt => b
  | Some Gt => a
  | Some Eq =>
      match a, b with
      | S754_zero true, S754_zero false => b
      | _, _ => a
      end
  end.

Definition Math_min (a b : number) : number :=
  match SFcompare a b with
  | None => S754_nan
  | Some Gt => b
  | Some Lt => a
  | Some Eq =>
      match a, b with
      | S754_zero false, S754_zero true => b
      | _, _ => a
      end
  end.

(** floor (x + 1/2) for x = (-1)^s * m * 2^e, computed exactly. *)
Definition round_half_up (s : bool) (m : positive) (e : Z) : Z :=
  if 0 <=? e then cond_Zopp s (Zpos m * 2 ^ e)
  else (2 * cond_Zopp s (Zpos m) + 2 ^ (- e)) / 2 ^ (1 - e).

(** [Math.round]: NaN, the infinities, the zeros and integral values are
    returned as they are; otherwise the nearest integer, the larger one on a
    tie, keeping the sign of x when the result is zero. *)
Definition Math_round (x : number) : number :=
  match x with
  | S754_finite s m e =>
      if 0 <=? e then x
      else let z := round_half_up s m e in
           if z =? 0 then S754_zero s else of_Z z
  | _ => x
  end.

(** ** The source functions *)

(** A value of type [number | undefined | null]. *)
Inductive field : Type :=
| Absent
| Null
| Num (v : number).

(** [SunsetForecastResponse["predicted"]], restricted to the three fields the
    score reads. *)
Record Predicted : Type := {
  cloudCover_pct : field;
  humidity_pct : field;
  pm25_ugm3 : field
}.

Definition toFiniteNumber (value : field) (fallback : number) : number :=
  match value with
  | Num v => if Number_isFinite v then v else fallback
  | _ => fallback
  end.

Definition clampScore (value : number) : number :=
  if negb (Number_isFinite value) then of_Z 0
  else Math_max (of_Z 0) (Math_min (of_Z 100) (Math_round value)).

(** The three [const] terms of [calculateSunsetScore], as functions of the
    normalized reading they are computed from. *)
Definition cloudTerm (clouds : number) : number :=
  Math_max (of_Z 0)
    (num_sub (of_Z 35) (num_mul (Math_abs (num_sub (of_Z 45) clouds)) (decimal 7 10))).

Definition humidityTerm (humidity : number) : number :=
  Math_max (of_Z 0)
    (num_sub (of_Z 20)
       (num_mul (Math_max (of_Z 0) (num_sub humidity (of_Z 55))) (decimal 5 10))).

Definition pmTerm (pm : number) : number :=
  Math_max (of_Z 0)
    (num_sub (of_Z 30) (num_mul (Math_max (of_Z 0) (num_sub pm (of_Z 12))) (of_Z 2))).

Definition baseline : number := of_Z 15.

(** The argument [calculateSunsetScore] passes to [clampScore]. *)
Definition rawScore (predicted : Predicted) : number :=
  let clouds := toFiniteNumber (cloudCover_pct predicted) (of_Z 60) in
  let humidity := toFiniteNumber (humidity_pct predicted) (of_Z 65) in
  let pm := toFiniteNumber (pm25_ugm3 predicted) (of_Z 12) in
  num_add (num_add (num_add (cloudTerm clouds) (humidityTerm humidity)) (pmTerm pm))
          baseline.

(** [None] is the absent [predicted] object on input and [null] on output. *)
Definition calculateSunsetScore (predicted : option Predicted) : option number :=
  match predicted with
  | None => None
  | Some p => Some (clampScore (rawScore p))
  end.

(** ** Readings and their well-formedness *)

Definition reading (c h p : number) : Predicted :=
  {| cloudCover_pct := Num c; humidity_pct := Num h; pm25_ugm3 := Num p |}.

Definition all_absent : Predicted :=
  {| cloudCover_pct := Absent; humidity_pct := Absent; pm25_ugm3 := Absent |}.

(** A [spec_float] that is a binary64 value: NaN, an infinity, a zero, or a
    significand and exponent in canonical form. *)
Definition binary64 (v : number) : Prop := valid_binary prec emax v = true.

Definition valid_field (f : field) : Prop :=
  match f with
  | Num v => binary64 v
  | _ => True
  end.

Definition valid_reading (p : Predicted) : Prop :=
  valid_field (cloudCover_pct p) /\ valid_field (humidity_pct p) /\
  valid_field (pm25_ugm3 p).

Definition valid_input (input : option Predicted) : Prop :=
  match input with
  | Some p => valid_reading p
  | None => True
  end.

(** A field the normalizer replaces by its fallback. *)
Definition unusable (f : field) : Prop :=
  match f with
  | Num v => Number_isFinite v = false
  | _ => True
  end.

(** ** The specification's formulas *)

(** The raw score as the specification words it: three floored terms and the
    constant 15, for inputs that are already usable. *)
Definition spec_cloudTerm (cloudCoverPct : number) : number :=
  Math_max (of_Z 0)
    (num_sub (of_Z 35)
       (num_mul (Math_abs (num_sub (of_Z 45) cloudCoverPct)) (decimal 7 10))).

Definition spec_humidityTerm (humidityPct : number) : number :=
  Math_max (of_Z 0)
    (num_sub (of_Z 20)
       (num_mul (Math_max (of_Z 0) (num_sub humidityPct (of_Z 55))) (decimal 5 10))).

Definition spec_pmTerm (pm25 : number) : number :=
  Math_max (of_Z 0)
    (num_sub (of_Z 30)
       (num_mul (Math_max (of_Z 0) (num_sub pm25 (of_Z 12))) (of_Z 2))).

Definition spec_rawScore (cloudCoverPct humidityPct pm25 : number) : number :=
  num_add
    (num_add (num_add (spec_cloudTerm cloudCoverPct) (spec_humidityTerm humidityPct))
             (spec_pmTerm pm25))
    (of_Z 15).

(** Exact rational value of a finite number. *)
Definition SF2Q (x : number) : Q :=
  match x with
  | S754_finite s m e =>
      if 0 <=? e then inject_Z (cond_Zopp s (Zpos m * 2 ^ e))
      else Qmake (cond_Zopp s (Zpos m)) (2 ^ Z.to_pos (- e))
  | _ => 0%Q
  end.

(** z is the integer nearest to x, a tie going to the larger integer. *)
Definition nearest_half_up (x : number) (z : Z) : Prop :=
  (inject_Z z - (1 # 2) <= SF2Q x)%Q /\ (SF2Q x < inject_Z z + (1 # 2))%Q.

Definition nearest_int (x : number) : Z :=
  match x with
  | S754_finite s m e => round_half_up s m e
  | _ => 0
  end.

Definition clamp100 (z : Z) : Z := Z.max 0 (Z.min 100 z).

(** Two cloud covers on one side of 45, b at least as far from 45 as a. *)
Definition same_side (a b : number) : bool :=
  (num_le (of_Z 45) a && num_le a b) || (num_le b a && num_le a (of_Z 45)).

(** Whole-number covers x and y on one side of 45, y strictly further away,
    both within the 50 points where the cloud term is above its floor. *)
Definition further_from_45 (x y : Z) : bool :=
  ((45 <=? x) && (x <? y) && (y <=? 95)) || ((-5 <=? y) && (y <? x) && (x <=? 45)).

(** Whole-number cloud covers from x0 upwards, n of them. *)
Definition whole_covers (x0 : Z) (n : nat) : list Z :=
  map (fun k => x0 + Z.of_nat k) (seq 0 n).

(** Between neighbouring whole-number covers the term drops when moving away
    from 45, as long as it has not reached its floor. *)
Definition steps_above_45 : bool :=
  forallb (fun x => num_lt (cloudTerm (of_Z (x + 1))) (cloudTerm (of_Z x)))
          (whole_covers 45 50).

Definition steps_below_45 : bool :=
  forallb (fun x => num_lt (cloudTerm (of_Z (x - 1))) (cloudTerm (of_Z x)))
          (whole_covers (-4) 50).

(** ** Rounding on integers

    Every finite binary64 value is an integer multiple of 2^-1074.  The rank
    of a number is its value in that unit, with the infinities placed at
    +-2^2098, just beyond the largest finite value; comparing numbers is
    comparing ranks, and the arithmetic operations become integer operations
    followed by a rounding to 53 significant bits. *)

Definition fexp64 (x : Z) : Z := Z.max (x - 53) (-1074).

(** Rank of the number 1. *)
Definition ONE : Z := 2 ^ 1074.

(** Rank of 2^971, the spacing of the largest finite numbers. *)
Definition BIG : Z := 2 ^ 2045.

(** Rank of the infinities, and of the largest finite number. *)
Definition TOP : Z := 2 ^ 2098.

Definition MAXR : Z := (2 ^ 53 - 1) * BIG.

Definition rank (x : spec_float) : Z :=
  match x with
  | S754_zero _ | S754_nan => 0
  | S754_infinity s => cond_Zopp s TOP
  | S754_finite s m e => cond_Zopp s (Zpos m * 2 ^ (e + 1074))
  end.

(** A binary64 value other than NaN. *)
Definition wf (x : spec_float) : Prop :=
  valid_binary prec emax x = true /\ x <> S754_nan.

(** m / 2^n rounded to the nearest integer, ties to even. *)
Definition rne (m n : Z) : Z :=
  let q := m / 2 ^ n in
  match 2 * (m mod 2 ^ n) ?= 2 ^ n with
  | Lt => q
  | Eq => if Z.even q then q else q + 1
  | Gt => q + 1
  end.

(** What n right shifts of [shr_1] leave of the significand m. *)
Definition shr_spec (m n : Z) : shr_record :=
  {| shr_m := m / 2 ^ n;
     shr_r := Z.odd (m / 2 ^ (n - 1));
     shr_s := negb (m mod 2 ^ (n - 1) =? 0) |}.

(** The result of [binary_round_aux] on an exact (m, e), in closed form. *)
Definition round_spec (s : bool) (m : positive) (e : Z) : spec_float :=
  let E := fexp64 (Zpos (digits2_pos m) + e) in
  let M1 := rne (Zpos m) (E - e) in
  if M1 =? 0 then S754_zero s
  else if M1 =? 2 ^ 53 then
    (if E + 1 <=? 971 then S754_finite s (2 ^ 52)%positive (E + 1) else S754_infinity s)
  else if E <=? 971 then S754_finite s (Z.to_pos M1) E else S754_infinity s.

(** Rounding of the positive integer N to 53 significant bits, the last kept
    bit at position u or above. *)
Definition RZu (u N : Z) : Z :=
  let n := Z.max (Z.log2 N + 1 - 53) u in rne N n * 2 ^ n.

Definition RZ (N : Z) : Z := RZu 0 N.

(** Rank of the rounded significand of (m, e). *)
Definition RV (m : positive) (e : Z) : Z :=
  let E := fexp64 (Zpos (digits2_pos m) + e) in
  rne (Zpos m) (E - e) * 2 ^ (E + 1074).

(** Signed rounding of a rank, saturating at the rank of the infinities. *)
Definition Rnd (N : Z) : Z := Z.sgn N * Z.min (RZ (Z.abs N)) TOP.

(** Rank of x - y for a finite x of rank rx and any y of rank ry. *)
Definition subR (rx ry : Z) : Z :=
  if ry =? TOP then - TOP else if ry =? - TOP then TOP else Rnd (rx - ry).

(** Rank of x * c for x of rank r >= 0 and the positive normal constant
    c = mc * 2^ec. *)
Definition mulR (mc : positive) (ec : Z) (r : Z) : Z :=
  let u := Z.max 0 (- ec) in
  if r =? 0 then 0
  else Z.min (RZu u (r * (Zpos mc * 2 ^ (ec + u))) / 2 ^ u) TOP.

(** Rank of max (0, C - x * c) for x of rank r. *)
Definition termR (C : Z) (mc : positive) (ec : Z) (r : Z) : Z :=
  Z.max 0 (subR (C * ONE) (mulR mc ec r)).

(** Significands of the literals 0.7, 0.5 and 2. *)
Definition m0_7 : positive := 6305039478318694.
Definition m0_5 : positive := 4503599627370496.
Definition m2 : positive := 4503599627370496.

(** Ranks of the three terms as functions of the rank of their input. *)
Definition cloudR (r : Z) : Z := termR 35 m0_7 (-53) (Z.abs (Rnd (45 * ONE - r))).
Definition humidityR (r : Z) : Z := termR 20 m0_5 (-53) (Z.max 0 (Rnd (r - 55 * ONE))).
Definition pmR (r : Z) : Z := termR 30 m2 (-51) (Z.max 0 (Rnd (r - 12 * ONE))).

(** ** The score the card displays *)

(** [a ?? b] with a possibly null and b a value. *)
Definition nullish_or {A : Type} (a : option A) (b : A) : A :=
  match a with
  | Some x => x
  | None => b
  end.

(** [const displayScore = clampScore(sunsetScore ?? score)]: the forecast
    score when there is one, the score of the sunset-index API otherwise. *)
Definition displayScore (sunsetScore : option number) (score : number) : number :=
  clampScore (nullish_or sunsetScore score).

(** [Math.min(100, Math.max(0, Math.round(response.score ?? 0)))], the value
    stored in [score] when the sunset-index API answers. *)
Definition nextScore (score : field) : number :=
  Math_min (of_Z 100)
    (Math_max (of_Z 0)
       (Math_round (match score with Num v => v | _ => of_Z 0 end))).

(** A cloud cover of at least 95 or at most -5. *)
Definition cloud_at_floor (c : number) : bool :=
  num_le (of_Z 95) c || num_le c (of_Z (-5)).

(** Rank of the raw score from the ranks of the three normalized inputs. *)
Definition rawR (rc rh rp : Z) : Z :=
  Rnd (Rnd (Rnd (cloudR rc + humidityR rh) + pmR rp) + 15 * ONE).

(** ** Strings, image URLs and the API base

    Strings are sequences of bytes; the functions below only look for the
    character "/", which is a single byte in every encoding of it. *)

Local Open Scope string_scope.

Definition is_slash (c : ascii) : bool := Ascii.eqb c "/"%char.

(** A JavaScript string is falsy exactly when it is empty. *)
Definition is_empty (s : string) : bool :=
  match s with
  | EmptyString => true
  | String _ _ => false
  end.

(** [s.replace(/^\/+/, "")] *)
Fixpoint strip_leading_slashes (s : string) : string :=
  match s with
  | String c s' => if is_slash c then strip_leading_slashes s' else s
  | EmptyString => EmptyString
  end.

(** [s.replace(/\/$/, "")] *)
Fixpoint strip_trailing_slash (s : string) : string :=
  match s with
  | EmptyString => EmptyString
  | String c s' =>
      match s' with
      | EmptyString => if is_slash c then EmptyString else s
      | String _ _ => String c (strip_trailing_slash s')
      end
  end.

(** [a ?? b] with both possibly undefined. *)
Definition nullish {A : Type} (a b : option A) : option A :=
  match a with
  | Some _ => a
  | None => b
  end.

Definition CDN_BASE_URL : string := "https://matsuesunsetai.com".

Definition buildPublicImageUrl (objectKey : option string) : option string :=
  match option_map strip_leading_slashes objectKey with
  | None => None
  | Some normalized =>
      if is_empty normalized then None
      else Some (CDN_BASE_URL ++ "/" ++ normalized)
  end.

Record GenerateCardResponse : Type := {
  requestId : option string;
  imageUrl : option string;
  cloudFrontUrl : option string;
  s3Url : option string;
  objectKey : option string;
  sunsetJst : option string
}.

Section UrlKeys.

(** [new URL(candidate).pathname], [None] when the constructor throws. *)
Variable URL_pathname : string -> option string.

Definition deriveObjectKeyFromUrl (candidate : option string) : option string :=
  match candidate with
  | None => None
  | Some c =>
      if is_empty c then None
      else match URL_pathname c with
           | Some pathname => Some (strip_leading_slashes pathname)
           | None => Some (strip_leading_slashes c)
           end
  end.

Definition resolveImageUrl (result : GenerateCardResponse) : option string :=
  let preferredKey :=
    nullish
      (nullish
         (nullish (objectKey result) (deriveObjectKeyFromUrl (imageUrl result)))
         (deriveObjectKeyFromUrl (cloudFrontUrl result)))
      (deriveObjectKeyFromUrl (s3Url result)) in
  buildPublicImageUrl preferredKey.

End UrlKeys.

Section NumberFormatting.

(** The decimal text a template literal inserts for a number. *)
Variable Number_toString : number -> string.

Definition formatPercentOrPlaceholder (value : field) : string :=
  match value with
  | Num v =>
      if Number_isFinite v then Number_toString (Math_round v) ++ "%" else "--"
  | _ => "--"
  end.

End NumberFormatting.

Definition DEFAULT_API_BASE : string :=
  "https://3s9sgxfexe.execute-api.us-east-1.amazonaws.com/prod".

(** [const BASE = (RAW_BASE || DEFAULT_API_BASE).replace(/\/$/, "")], as a
    function of the trimmed environment value. *)
Definition BASE (RAW_BASE : string) : string :=
  strip_trailing_slash (if is_empty RAW_BASE then DEFAULT_API_BASE else RAW_BASE).

Inductive completion : Type :=
| Returns
| Throws (message : string).

Definition requireBaseUrl (base : string) : completion :=
  if is_empty base
  then Throws "VITE_API_URL is not defined. Please configure frontend/.env."
  else Returns.

(** [const apiMissing = !apiConfig.baseUrl] *)
Definition apiMissing (base : string) : bool := is_empty base.

(** n characters "/". *)
Fixpoint slashes (n : nat) : string :=
  match n with
  | O => EmptyString
  | S n' => String "/" (slashes n')
  end.

Definition starts_with_slash (s : string) : bool :=
  match s with
  | String c _ => is_slash c
  | EmptyString => false
  end.

Fixpoint ends_with_slash (s : string) : bool :=
  match s with
  | EmptyString => false
  | String c s' =>
      match s' with
      | EmptyString => is_slash c
      | String _ _ => ends_with_slash s'
      end
  end.

Local Close Scope string_scope.

(** ** Powers of two and digit counts *)

Lemma pow2_pred (n : Z) : 0 < n -> 2 ^ n = 2 ^ (n - 1) * 2.
Proof.
  intros Hn. replace n with (Z.succ (n - 1)) at 1 by lia.
  rewrite Z.pow_succ_r by lia. lia.
Qed.

Lemma digits2_pos_log2 (m : positive) :
  Zpos (digits2_pos m) = Z.log2 (Zpos m) + 1.
Proof.
  assert (H : forall p, digits2_pos p = Pos.size p).
  { induction p; simpl; congruence. }
  destruct m; simpl; rewrite ?H; lia.
Qed.

Lemma digits2_pos_bounds (m : positive) :
  2 ^ (Zpos (digits2_pos m) - 1) <= Zpos m < 2 ^ Zpos (digits2_pos m).
Proof.
  rewrite digits2_pos_log2.
  replace (Z.log2 (Z.pos m) + 1 - 1) with (Z.log2 (Z.pos m)) by lia.
  replace (Z.log2 (Z.pos m) + 1) with (Z.succ (Z.log2 (Z.pos m))) by lia.
  apply Z.log2_spec. lia.
Qed.

Lemma pow2_pos (n : Z) : 0 <= n -> 0 < 2 ^ n.
Proof. intros. apply Z.pow_pos_nonneg; lia. Qed.

Lemma pow2_le (a b : Z) : 0 <= a <= b -> 2 ^ a <= 2 ^ b.
Proof. intros. apply Z.pow_le_mono_r; lia. Qed.

Lemma digits_le (m : positive) (k : Z) :
  0 <= k -> Zpos m < 2 ^ k -> Zpos (digits2_pos m) <= k.
Proof.
  intros Hk Hm. destruct (Z_le_gt_dec (Zpos (digits2_pos m)) k) as [|Hgt]; [assumption|].
  pose proof (digits2_pos_bounds m) as [Hlo _].
  pose proof (pow2_le k (Zpos (digits2_pos m) - 1) ltac:(lia)). lia.
Qed.

Lemma digits_ge (m : positive) (k : Z) :
  2 ^ (k - 1) <= Zpos m -> Zpos (digits2_pos m) >= k.
Proof.
  intros Hm. destruct (Z_lt_ge_dec (Zpos (digits2_pos m)) k) as [Hlt|]; [|assumption].
  pose proof (digits2_pos_bounds m) as [_ Hhi].
  pose proof (pow2_le (Zpos (digits2_pos m)) (k - 1) ltac:(lia)). lia.
Qed.

(** ** Shifting the significand

    [shr] drops the low bits of a significand one at a time, keeping a round
    bit and a sticky bit; together they decide the rounding to nearest even. *)

Section Iteration.

Context {A : Type} (f : A -> A).

Lemma iter_pos_iter (p : positive) (x : A) :
  iter_pos f p x = Pos.iter f x p.
Proof.
  revert x. induction p; intros x; simpl.
  - rewrite !IHp. rewrite !Pos.iter_swap. reflexivity.
  - rewrite !IHp. reflexivity.
  - reflexivity.
Qed.

End Iteration.

Lemma shl_iter (m d : positive) : Zpos (Pos.iter xO m d) = Zpos m * 2 ^ Zpos d.
Proof.
  induction d using Pos.peano_ind.
  - simpl. lia.
  - rewrite Pos.iter_succ. rewrite Pos2Z.inj_succ, Z.pow_succ_r by lia.
    rewrite Pos2Z.inj_xO, IHd. lia.
Qed.

Lemma shr_1_spec (m : Z) (r s : bool) :
  0 <= m ->
  shr_1 {| shr_m := m; shr_r := r; shr_s := s |} =
  {| shr_m := m / 2; shr_r := Z.odd m; shr_s := r || s |}.
Proof.
  intros Hm. rewrite <- Z.div2_div.
  destruct m as [|p|p]; try lia.
  - reflexivity.
  - destruct p; reflexivity.
Qed.

Lemma shr_iter_spec (m : Z) (p : positive) :
  0 <= m ->
  iter_pos shr_1 p {| shr_m := m; shr_r := false; shr_s := false |} = shr_spec m (Zpos p).
Proof.
  intros Hm. rewrite iter_pos_iter.
  induction p using Pos.peano_ind.
  - cbn [Pos.iter]. rewrite shr_1_spec by lia. unfold shr_spec. change (1 - 1) with 0.
    rewrite Z.pow_0_r, Z.pow_1_r, Z.div_1_r, Z.mod_1_r. reflexivity.
  - rewrite Pos.iter_succ, IHp. unfold shr_spec.
    rewrite shr_1_spec by (apply Z.div_pos; lia).
    rewrite Pos2Z.inj_succ.
    replace (Z.succ (Z.pos p) - 1) with (Z.pos p) by lia.
    rewrite Z.pow_succ_r by lia.
    f_equal.
    + rewrite Z.mul_comm, <- Z.div_div by lia. reflexivity.
    + (* sticky *)
      assert (Hp : 0 < 2 ^ (Z.pos p - 1)) by (apply Z.pow_pos_nonneg; lia).
      assert (E : 2 ^ Z.pos p = 2 ^ (Z.pos p - 1) * 2).
      { apply pow2_pred. lia. }
      rewrite E. rewrite Z.rem_mul_r by lia.
      pose proof (Z.mod_pos_bound m (2 ^ (Z.pos p - 1)) Hp).
      pose proof (Z.mod_pos_bound (m / 2 ^ (Z.pos p - 1)) 2 ltac:(lia)).
      rewrite Zodd_mod.
      destruct (Z.eqb_spec ((m / 2 ^ (Z.pos p - 1)) mod 2) 1);
      destruct (Z.eqb_spec (m mod 2 ^ (Z.pos p - 1)) 0);
      destruct (Z.eqb_spec (m mod 2 ^ (Z.pos p - 1) + 2 ^ (Z.pos p - 1) * ((m / 2 ^ (Z.pos p - 1)) mod 2)) 0);
      simpl; try reflexivity; try nia.
Qed.

Lemma rne_shr (m n : Z) :
  0 <= m -> 0 < n ->
  round_nearest_even (shr_m (shr_spec m n)) (loc_of_shr_record (shr_spec m n)) = rne m n.
Proof.
  intros Hm Hn. unfold shr_spec, rne. cbn [shr_m loc_of_shr_record].
  assert (Hp : 0 < 2 ^ (n - 1)) by (apply Z.pow_pos_nonneg; lia).
  assert (E : 2 ^ n = 2 ^ (n - 1) * 2).
  { apply pow2_pred. lia. }
  rewrite E at 2 3. rewrite Z.rem_mul_r by lia.
  pose proof (Z.mod_pos_bound m (2 ^ (n - 1)) Hp).
  pose proof (Z.mod_pos_bound (m / 2 ^ (n - 1)) 2 ltac:(lia)).
  rewrite Zodd_mod.
  destruct (Z.eqb_spec ((m / 2 ^ (n - 1)) mod 2) 1) as [H1|H1];
  destruct (Z.eqb_spec (m mod 2 ^ (n - 1)) 0) as [H2|H2]; cbn [negb round_nearest_even].
  - rewrite H1, H2. replace (2 * (0 + 2 ^ (n - 1) * 1) ?= 2 ^ (n - 1) * 2) with Eq; [reflexivity|].
    symmetry. apply Z.compare_eq_iff. lia.
  - rewrite H1. replace (_ ?= _) with Gt; [reflexivity|]. symmetry. apply Z.compare_gt_iff. lia.
  - replace (_ ?= _) with Lt; [reflexivity|]. symmetry. apply Z.compare_lt_iff. nia.
  - replace (_ ?= _) with Lt; [reflexivity|]. symmetry. apply Z.compare_lt_iff. nia.
Qed.

(** ** Rounding a significand: [binary_round_aux] in closed form *)

Lemma fexp_eq (x : Z) : fexp prec emax x = fexp64 x.
Proof. reflexivity. Qed.

Lemma rne_0 (m : Z) : rne m 0 = m.
Proof.
  unfold rne. rewrite Z.pow_0_r, Z.div_1_r, Z.mod_1_r. reflexivity.
Qed.

Lemma rne_bounds (m n : Z) :
  0 <= n -> m / 2 ^ n <= rne m n <= m / 2 ^ n + 1.
Proof.
  intros Hn. unfold rne.
  destruct (_ ?= _); [destruct (Z.even _)| |]; lia.
Qed.

(* digit count and magnitude of the rounded significand *)
Lemma rne_range (m : positive) (e : Z) :
  let d := Zpos (digits2_pos m) in
  let E := fexp64 (d + e) in
  e <= E ->
  0 <= rne (Zpos m) (E - e) <= 2 ^ 53 /\
  (-1074 < E -> 2 ^ 52 <= rne (Zpos m) (E - e)).
Proof.
  intros d E He.
  pose proof (digits2_pos_bounds m) as [Hlo Hhi]. fold d in Hlo, Hhi.
  assert (Hd : 0 < d) by (unfold d; lia).
  set (n := E - e) in *. assert (Hn : 0 <= n) by lia.
  pose proof (rne_bounds (Zpos m) n Hn) as [Hb1 Hb2].
  pose proof (pow2_pos n Hn) as Hpn.
  assert (Hn53 : d <= n + 53) by (unfold n, E, fexp64; lia).
  split; [split|].
  - pose proof (Z.div_pos (Zpos m) (2 ^ n) ltac:(lia) Hpn). lia.
  - assert (Zpos m / 2 ^ n < 2 ^ 53); [|lia].
    apply Z.div_lt_upper_bound; [lia|].
    rewrite <- Z.pow_add_r by lia.
    pose proof (pow2_le d (n + 53) ltac:(lia)). lia.
  - intros HE. assert (n = d - 53) by (unfold n, E, fexp64 in *; lia).
    assert (2 ^ 52 <= Zpos m / 2 ^ n); [|lia].
    apply Z.div_le_lower_bound; [lia|].
    rewrite <- Z.pow_add_r by lia.
    replace (n + 52) with (d - 1) by lia. lia.
Qed.

Lemma bra_spec (s : bool) (m : positive) (e : Z) :
  e <= fexp64 (Zpos (digits2_pos m) + e) ->
  binary_round_aux prec emax s (Zpos m) e loc_Exact = round_spec s m e.
Proof.
  intros He.
  pose proof (rne_range m e He) as [[HM0 HM1] HM2].
  unfold binary_round_aux, round_spec, shr_fexp.
  rewrite !fexp_eq. cbn [Zdigits2 shr_record_of_loc].
  set (d := Zpos (digits2_pos m)) in *.
  set (E := fexp64 (d + e)) in *.
  assert (HE : -1074 <= E) by (unfold E, fexp64; lia).
  change (emax - prec) with 971.
  destruct (Z.eq_dec (E - e) 0) as [Hn0|Hn0].
  - (* no shift *)
    rewrite Hn0 in *. cbn [shr shr_m loc_of_shr_record round_nearest_even].
    rewrite rne_0 in *. rewrite fexp_eq. cbn [Zdigits2]. fold d. fold E.
    rewrite Hn0. cbn [shr shr_m].
    replace (Z.pos m =? 0) with false by (symmetry; apply Z.eqb_neq; lia).
    assert (Hd : d <= 53) by (unfold E, fexp64 in Hn0; lia).
    pose proof (digits2_pos_bounds m) as [_ Hhi]. fold d in Hhi.
    pose proof (pow2_le d 53 ltac:(unfold d; lia)).
    replace (Z.pos m =? 2 ^ 53) with false by (symmetry; apply Z.eqb_neq; lia).
    replace e with E by lia. rewrite Pos2Z.id. reflexivity.
  - assert (Hn : 0 < E - e) by lia.
    destruct (E - e) as [|p|p] eqn:Hp; try lia.
    cbn [shr]. rewrite shr_iter_spec by lia. rewrite rne_shr by lia.
    rewrite <- Hp in *. replace (e + (E - e)) with E by lia.
    set (M1 := rne (Z.pos m) (E - e)) in *.
    destruct (Z.eqb_spec M1 0) as [Hz|Hz].
    + rewrite Hz. cbn [Zdigits2 shr_record_of_loc]. rewrite fexp_eq.
      replace (fexp64 (0 + E) - E) with (-(Z.min 53 (E + 1074))) by (unfold fexp64; lia).
      destruct (Z.min 53 (E + 1074)) eqn:Hmin; try lia; reflexivity.
    + destruct (Z.eqb_spec M1 (2 ^ 53)) as [Hc|Hc].
      * rewrite Hc. change (Zdigits2 (2 ^ 53)) with 54. rewrite fexp_eq.
        replace (fexp64 (54 + E) - E) with 1 by (unfold fexp64; lia).
        cbn -[Z.leb]. reflexivity.
      * destruct M1 as [|m1|m1] eqn:HM; try lia.
        cbn [Zdigits2 shr_record_of_loc]. rewrite fexp_eq.
        assert (Hd1 : Zpos (digits2_pos m1) <= 53) by (apply digits_le; lia).
        assert (Hle : fexp64 (Zpos (digits2_pos m1) + E) - E <= 0) by (unfold fexp64; lia).
        destruct (fexp64 (Zpos (digits2_pos m1) + E) - E) eqn:Hf; try lia;
          cbn [shr shr_m]; rewrite ?Pos2Z.id; reflexivity.
Qed.

(** ** Ranks

    The three large constants are kept opaque, so that arithmetic goals
    mention them by name. *)

Lemma TOP_split : TOP = 2 ^ 53 * BIG.
Proof. reflexivity. Qed.

Lemma BIG_split : BIG = ONE * 2 ^ 971.
Proof. reflexivity. Qed.

Lemma TOP_exp : TOP = 2 ^ 2098.
Proof. reflexivity. Qed.

Lemma BIG_exp : BIG = 2 ^ 2045.
Proof. reflexivity. Qed.

Lemma ONE_exp : ONE = 2 ^ 1074.
Proof. reflexivity. Qed.

Global Opaque TOP BIG ONE.

Lemma BIG_pos : 0 < BIG.
Proof. rewrite BIG_exp. apply Z.pow_pos_nonneg; lia. Qed.

Lemma ONE_pos : 0 < ONE.
Proof. rewrite ONE_exp. apply Z.pow_pos_nonneg; lia. Qed.

Lemma TOP_pos : 0 < TOP.
Proof. rewrite TOP_split. pose proof BIG_pos. lia. Qed.

(* 2^k against the rank of the spacing of the largest numbers *)
Lemma pow2_BIG_le (k : Z) : 0 <= k <= 2045 -> 2 ^ k <= BIG.
Proof. intros H. rewrite BIG_exp. apply Z.pow_le_mono_r; lia. Qed.

Lemma pow2_BIG_lt (k : Z) : 0 <= k < 2045 -> 2 ^ k < BIG.
Proof. intros H. rewrite BIG_exp. apply Z.pow_lt_mono_r; lia. Qed.

Lemma pow2_BIG_ge (k : Z) : 2045 <= k -> BIG <= 2 ^ k.
Proof. intros H. rewrite BIG_exp. apply Z.pow_le_mono_r; lia. Qed.

Lemma pow2_BIG_gt (k : Z) : 2045 < k -> 2 * BIG <= 2 ^ k.
Proof.
  intros H. rewrite BIG_exp, <- Z.pow_succ_r by lia.
  apply Z.pow_le_mono_r; lia.
Qed.

Lemma pow2_ONE_above (e : Z) : 0 <= e -> 2 ^ (e + 1074) = 2 ^ e * ONE.
Proof. intros H. rewrite ONE_exp, <- Z.pow_add_r by lia. reflexivity. Qed.

Lemma pow2_ONE_below (e : Z) : -1074 <= e <= 0 -> ONE = 2 ^ (e + 1074) * 2 ^ (- e).
Proof.
  intros H. rewrite ONE_exp, <- Z.pow_add_r by lia. f_equal. lia.
Qed.

Lemma cond_Zopp_0 (s : bool) : cond_Zopp s 0 = 0.
Proof. destruct s; reflexivity. Qed.

Lemma valid_finite_iff (s : bool) (m : positive) (e : Z) :
  valid_binary prec emax (S754_finite s m e) = true <->
  fexp64 (Zpos (digits2_pos m) + e) = e /\ e <= 971.
Proof.
  cbn [valid_binary]. unfold bounded, canonical_mantissa.
  rewrite fexp_eq. change (emax - prec) with 971.
  rewrite andb_true_iff, Z.eqb_eq, Z.leb_le. reflexivity.
Qed.

(** ** Rounding is monotone

    [RZu] depends only on the value it rounds, and a larger value never
    rounds to a smaller one. *)

Lemma log2_digits (m : positive) (k : Z) :
  0 <= k -> Z.log2 (Zpos m * 2 ^ k) + 1 = Zpos (digits2_pos m) + k.
Proof.
  intros Hk. rewrite Z.log2_mul_pow2 by lia. rewrite digits2_pos_log2. lia.
Qed.

Lemma rne_scale (m n k : Z) :
  0 <= n -> 0 <= k -> rne (m * 2 ^ k) (n + k) = rne m n.
Proof.
  intros Hn Hk. unfold rne.
  pose proof (pow2_pos n Hn). pose proof (pow2_pos k Hk).
  rewrite Z.pow_add_r by lia.
  rewrite Z.div_mul_cancel_r by lia.
  rewrite Z.mul_mod_distr_r by lia.
  replace (2 * (m mod 2 ^ n * 2 ^ k)) with ((2 * (m mod 2 ^ n)) * 2 ^ k) by lia.
  rewrite <- Zmult_compare_compat_r by lia. reflexivity.
Qed.

Lemma rne_exact (m n : Z) : 0 <= n -> rne (m * 2 ^ n) n = m.
Proof.
  intros Hn. replace n with (0 + n) at 2 by lia.
  rewrite rne_scale by lia. apply rne_0.
Qed.

Lemma rne_mono (m1 m2 n : Z) :
  0 <= n -> m1 <= m2 -> rne m1 n <= rne m2 n.
Proof.
  intros Hn Hm. pose proof (pow2_pos n Hn) as Hp.
  pose proof (Z.div_le_mono m1 m2 (2 ^ n) Hp Hm) as Hq.
  pose proof (rne_bounds m1 n Hn). pose proof (rne_bounds m2 n Hn).
  destruct (Z.eq_dec (m1 / 2 ^ n) (m2 / 2 ^ n)) as [Heq|Hne]; [|lia].
  pose proof (Z.div_mod m1 (2 ^ n) ltac:(lia)) as E1.
  pose proof (Z.div_mod m2 (2 ^ n) ltac:(lia)) as E2.
  unfold rne. rewrite <- Heq.
  destruct (Z.compare_spec (2 * (m1 mod 2 ^ n)) (2 ^ n));
  destruct (Z.compare_spec (2 * (m2 mod 2 ^ n)) (2 ^ n));
  try destruct (Z.even _); nia.
Qed.

Lemma rne_nonneg (m n : Z) : 0 <= n -> 0 <= m -> 0 <= rne m n.
Proof.
  intros Hn Hm. pose proof (rne_bounds m n Hn).
  pose proof (Z.div_pos m (2 ^ n) Hm (pow2_pos n Hn)). lia.
Qed.

Lemma RZu_nonneg (u N : Z) : 0 <= u -> 0 <= N -> 0 <= RZu u N.
Proof.
  intros Hu HN. unfold RZu.
  apply Z.mul_nonneg_nonneg.
  - apply rne_nonneg; lia.
  - pose proof (pow2_pos (Z.max (Z.log2 N + 1 - 53) u) ltac:(lia)). lia.
Qed.

Lemma RZu_upper (u N : Z) :
  0 <= u -> 0 < N -> RZu u N <= 2 ^ (Z.log2 N + 1).
Proof.
  intros Hu HN. unfold RZu.
  set (D := Z.log2 N + 1). set (n := Z.max (D - 53) u).
  pose proof (Z.log2_nonneg N).
  destruct (Z.log2_spec N HN) as [Hlo Hhi]. fold D in Hhi.
  replace (Z.succ (Z.log2 N)) with D in Hhi by (unfold D; lia).
  assert (Hn : 0 <= n) by lia. pose proof (pow2_pos n Hn) as Hp.
  pose proof (rne_bounds N n Hn) as [_ Hb].
  destruct (Z_le_gt_dec n D) as [Hle|Hgt].
  - assert (N / 2 ^ n < 2 ^ (D - n)).
    { apply Z.div_lt_upper_bound; [lia|]. rewrite <- Z.pow_add_r by lia.
      replace (n + (D - n)) with D by lia. lia. }
    replace (2 ^ D) with (2 ^ (D - n) * 2 ^ n)
      by (rewrite <- Z.pow_add_r by lia; f_equal; lia).
    apply Z.mul_le_mono_nonneg_r; lia.
  - assert (Hs : 2 * N < 2 ^ n).
    { pose proof (pow2_le (D + 1) n ltac:(lia)).
      assert (2 ^ (D + 1) = 2 ^ D * 2) by (rewrite Z.pow_add_r by lia; reflexivity).
      lia. }
    unfold rne. rewrite Z.div_small, Z.mod_small by lia.
    replace (2 * N ?= 2 ^ n) with Lt by (symmetry; apply Z.compare_lt_iff; lia).
    pose proof (pow2_pos D ltac:(lia)). lia.
Qed.

Lemma RZu_lower (u N : Z) :
  0 <= u -> 0 < N -> Z.log2 N + 1 - 53 >= u -> 2 ^ (Z.log2 N) <= RZu u N.
Proof.
  intros Hu HN Hbig. unfold RZu.
  set (D := Z.log2 N + 1) in *. set (n := Z.max (D - 53) u).
  assert (Hn : n = D - 53) by lia.
  destruct (Z.log2_spec N HN) as [Hlo Hhi].
  pose proof (pow2_pos n ltac:(lia)) as Hp.
  pose proof (rne_bounds N n ltac:(lia)) as [Hb _].
  assert (2 ^ (Z.log2 N - n) <= N / 2 ^ n).
  { apply Z.div_le_lower_bound; [lia|]. rewrite <- Z.pow_add_r by lia.
    replace (n + (Z.log2 N - n)) with (Z.log2 N) by lia. lia. }
  replace (2 ^ Z.log2 N) with (2 ^ (Z.log2 N - n) * 2 ^ n)
    by (rewrite <- Z.pow_add_r by lia; f_equal; lia).
  apply Z.mul_le_mono_nonneg_r; lia.
Qed.

Lemma RZu_mono (u N1 N2 : Z) :
  0 <= u -> 0 < N1 <= N2 -> RZu u N1 <= RZu u N2.
Proof.
  intros Hu [H1 H12].
  pose proof (Z.log2_le_mono N1 N2 H12) as Hlog.
  pose proof (Z.log2_nonneg N1).
  destruct (Z.eq_dec (Z.max (Z.log2 N1 + 1 - 53) u) (Z.max (Z.log2 N2 + 1 - 53) u)) as [Heq|Hne].
  - unfold RZu. rewrite <- Heq.
    set (n := Z.max (Z.log2 N1 + 1 - 53) u).
    pose proof (pow2_pos n ltac:(lia)).
    apply Z.mul_le_mono_nonneg_r; [lia|]. apply rne_mono; lia.
  - pose proof (RZu_upper u N1 Hu H1).
    pose proof (RZu_lower u N2 Hu ltac:(lia) ltac:(lia)).
    pose proof (pow2_le (Z.log2 N1 + 1) (Z.log2 N2) ltac:(lia)). lia.
Qed.

Lemma RV_RZu (m : positive) (e u : Z) :
  e <= fexp64 (Zpos (digits2_pos m) + e) ->
  0 <= u -> 0 <= e + 1074 + u ->
  RV m e * 2 ^ u = RZu u (Zpos m * 2 ^ (e + 1074 + u)).
Proof.
  intros He Hu Hk. unfold RV, RZu.
  set (d := Zpos (digits2_pos m)). set (E := fexp64 (d + e)) in *.
  rewrite log2_digits by lia. fold d.
  replace (Z.max (d + (e + 1074 + u) - 53) u) with (E + 1074 + u)
    by (unfold E, fexp64; lia).
  assert (HE : -1074 <= E) by (unfold E, fexp64; lia).
  assert (He' : e <= E) by exact He.
  replace (E + 1074 + u) with ((E - e) + (e + 1074 + u)) at 1 by lia.
  rewrite rne_scale by lia.
  rewrite (Z.pow_add_r 2 (E + 1074) u) by lia. lia.
Qed.

Lemma round_spec_props (s : bool) (m : positive) (e : Z) :
  e <= fexp64 (Zpos (digits2_pos m) + e) ->
  wf (round_spec s m e) /\
  rank (round_spec s m e) = cond_Zopp s (Z.min (RV m e) TOP).
Proof.
  intros He.
  pose proof (rne_range m e He) as [[HM0 HM1] HM2].
  unfold round_spec, RV.
  set (d := Zpos (digits2_pos m)) in *.
  set (E := fexp64 (d + e)) in *.
  assert (HE : -1074 <= E) by (unfold E, fexp64; lia).
  set (M1 := rne (Z.pos m) (E - e)) in *.
  pose proof (pow2_pos (E + 1074) ltac:(lia)) as Hpe.
  pose proof TOP_split as HT. pose proof BIG_pos as HB.
  assert (H53 : 2 ^ 53 = 9007199254740992) by reflexivity.
  assert (H52 : 2 ^ 52 = 4503599627370496) by reflexivity.
  rewrite H53 in *. rewrite H52 in *.
  destruct (Z.eqb_spec M1 0) as [Hz|Hz].
  - split; [split; [reflexivity|discriminate]|].
    rewrite Hz. cbn [rank]. rewrite Z.mul_0_l.
    rewrite Z.min_l by lia. rewrite cond_Zopp_0. reflexivity.
  - destruct (Z.eqb_spec M1 9007199254740992) as [Hc|Hc].
    + rewrite Hc. destruct (Z.leb_spec (E + 1) 971) as [Ho|Ho].
      * split; [split; [|discriminate]|].
        { apply valid_finite_iff. split; [|lia].
          change (Zpos (digits2_pos (2 ^ 52))) with 53. unfold fexp64. lia. }
        cbn [rank]. f_equal.
        pose proof (pow2_BIG_lt (E + 1074) ltac:(lia)) as Hlt.
        replace (E + 1 + 1074) with (Z.succ (E + 1074)) by lia.
        rewrite Z.pow_succ_r by lia.
        change (Z.pos (2 ^ 52)) with 4503599627370496.
        set (P := 2 ^ (E + 1074)) in *. clearbody P.
        rewrite Z.min_l by lia. lia.
      * split; [split; [reflexivity|discriminate]|].
        cbn [rank]. f_equal.
        pose proof (pow2_BIG_ge (E + 1074) ltac:(lia)) as Hge.
        set (P := 2 ^ (E + 1074)) in *. clearbody P.
        rewrite Z.min_r by lia. reflexivity.
    + assert (Hpos : 0 < M1) by lia.
      assert (HM : Zpos (Z.to_pos M1) = M1) by (apply Z2Pos.id; lia).
      destruct (Z.leb_spec E 971) as [Ho|Ho].
      * split; [split; [|discriminate]|].
        { apply valid_finite_iff. split; [|lia].
          assert (Zpos (digits2_pos (Z.to_pos M1)) <= 53)
            by (apply digits_le; [lia|rewrite HM, H53; lia]).
          destruct (Z.eq_dec E (-1074)) as [Hsub|Hnorm].
          - unfold fexp64. lia.
          - pose proof (HM2 ltac:(lia)).
            assert (Zpos (digits2_pos (Z.to_pos M1)) >= 53)
              by (apply digits_ge; rewrite HM; change (2 ^ (53 - 1)) with 4503599627370496; assumption).
            unfold fexp64. lia. }
        cbn [rank]. f_equal. rewrite HM.
        pose proof (pow2_BIG_le (E + 1074) ltac:(lia)) as Hle.
        set (P := 2 ^ (E + 1074)) in *. clearbody P.
        rewrite Z.min_l by nia. reflexivity.
      * split; [split; [reflexivity|discriminate]|].
        cbn [rank]. f_equal.
        pose proof (HM2 ltac:(lia)).
        pose proof (pow2_BIG_gt (E + 1074) ltac:(lia)) as Hgt.
        set (P := 2 ^ (E + 1074)) in *. clearbody P.
        rewrite Z.min_r by nia. reflexivity.
Qed.

(** ** Normalization, addition and subtraction *)

Lemma shl_align_spec (m : positive) (e e' : Z) :
  snd (shl_align m e e') = Z.min e e' /\
  Zpos (fst (shl_align m e e')) = Zpos m * 2 ^ (e - Z.min e e').
Proof.
  unfold shl_align. destruct (e' - e) as [|d|d] eqn:Hd; cbn [fst snd].
  - rewrite Z.min_l by lia. rewrite Z.sub_diag. split; lia.
  - rewrite Z.min_l by lia. rewrite Z.sub_diag. split; lia.
  - rewrite Z.min_r by lia. split; [reflexivity|].
    rewrite shl_iter. f_equal. f_equal. lia.
Qed.

Lemma binary_round_props (s : bool) (m : positive) (e : Z) :
  -1074 <= e ->
  wf (binary_round prec emax s m e) /\
  rank (binary_round prec emax s m e) =
    cond_Zopp s (Z.min (RZ (Zpos m * 2 ^ (e + 1074))) TOP).
Proof.
  intros He. unfold binary_round. rewrite fexp_eq.
  set (d := Zpos (digits2_pos m)).
  pose proof (shl_align_spec m e (fexp64 (d + e))) as [Hez Hmz].
  destruct (shl_align m e (fexp64 (d + e))) as [mz ez]. cbn [fst snd] in *.
  assert (HE : -1074 <= fexp64 (d + e)) by (unfold fexp64; lia).
  assert (Hdz : Zpos (digits2_pos mz) + ez = d + e).
  { rewrite digits2_pos_log2, Hmz. rewrite Z.log2_mul_pow2 by lia.
    pose proof (digits2_pos_log2 m) as Hdm. fold d in Hdm. lia. }
  assert (Hpre : ez <= fexp64 (Zpos (digits2_pos mz) + ez)) by (rewrite Hdz; lia).
  rewrite bra_spec by assumption.
  destruct (round_spec_props s mz ez Hpre) as [Hwf Hrk].
  split; [assumption|]. rewrite Hrk. f_equal. f_equal.
  pose proof (RV_RZu mz ez 0 Hpre ltac:(lia) ltac:(lia)) as HR.
  rewrite Z.pow_0_r, Z.mul_1_r, Z.add_0_r in HR. unfold RZ. rewrite HR.
  f_equal. rewrite Hmz, <- Z.mul_assoc, <- Z.pow_add_r by lia.
  f_equal. f_equal. lia.
Qed.

Lemma binary_normalize_props (M e : Z) :
  -1074 <= e ->
  wf (binary_normalize prec emax M e false) /\
  rank (binary_normalize prec emax M e false) = Rnd (M * 2 ^ (e + 1074)).
Proof.
  intros He. pose proof (pow2_pos (e + 1074) ltac:(lia)) as Hp.
  unfold Rnd. destruct M as [|m|m]; cbn [binary_normalize].
  - split; [split; [reflexivity|discriminate]|]. reflexivity.
  - destruct (binary_round_props false m e He) as [Hwf Hrk].
    split; [assumption|]. rewrite Hrk. cbn [cond_Zopp].
    rewrite Z.sgn_pos by lia. rewrite Z.abs_eq by lia. lia.
  - destruct (binary_round_props true m e He) as [Hwf Hrk].
    split; [assumption|]. rewrite Hrk. cbn [cond_Zopp].
    rewrite Z.sgn_neg by lia. rewrite Z.abs_neq by lia.
    replace (- (Z.neg m * 2 ^ (e + 1074))) with (Zpos m * 2 ^ (e + 1074)) by lia.
    lia.
Qed.

Lemma RZ_nonneg (N : Z) : 0 <= N -> 0 <= RZ N.
Proof. intros. apply RZu_nonneg; lia. Qed.

Lemma Rnd_mono (N1 N2 : Z) : N1 <= N2 -> Rnd N1 <= Rnd N2.
Proof.
  intros H. unfold Rnd. pose proof TOP_pos.
  pose proof (RZ_nonneg (Z.abs N1) (Z.abs_nonneg N1)).
  pose proof (RZ_nonneg (Z.abs N2) (Z.abs_nonneg N2)).
  destruct (Z.sgn_spec N1) as [[S1 ->]|[[S1 ->]|[S1 ->]]];
  destruct (Z.sgn_spec N2) as [[S2 ->]|[[S2 ->]|[S2 ->]]]; try lia.
  - rewrite !Z.abs_eq by lia.
    pose proof (RZu_mono 0 N1 N2 ltac:(lia) ltac:(lia)). unfold RZ. lia.
  - rewrite !Z.abs_neq by lia.
    pose proof (RZu_mono 0 (-N2) (-N1) ltac:(lia) ltac:(lia)). unfold RZ. lia.
Qed.

Lemma Rnd_0 : Rnd 0 = 0.
Proof. reflexivity. Qed.

Lemma Rnd_opp (N : Z) : Rnd (- N) = - Rnd N.
Proof. unfold Rnd. rewrite Z.sgn_opp, Z.abs_opp. lia. Qed.

Lemma Rnd_bounds (N : Z) : - TOP <= Rnd N <= TOP.
Proof.
  unfold Rnd. pose proof TOP_pos.
  pose proof (RZ_nonneg (Z.abs N) (Z.abs_nonneg N)).
  destruct (Z.sgn_spec N) as [[H1 ->]|[[H1 ->]|[H1 ->]]]; lia.
Qed.

(* a significand of at most 53 bits is rounded to itself *)
Lemma RZ_exact (z k : Z) :
  0 < z < 2 ^ 53 -> 0 <= k -> RZ (z * 2 ^ k) = z * 2 ^ k.
Proof.
  intros [Hz Hz53] Hk. unfold RZ, RZu.
  rewrite Z.log2_mul_pow2 by lia.
  assert (Z.log2 z < 53) by (apply Z.log2_lt_pow2; lia).
  pose proof (Z.log2_nonneg z).
  set (n := Z.max _ 0).
  assert (Hn : 0 <= n <= k) by lia.
  replace (z * 2 ^ k) with ((z * 2 ^ (k - n)) * 2 ^ n) at 1
    by (rewrite <- Z.mul_assoc, <- Z.pow_add_r by lia; do 2 f_equal; lia).
  rewrite rne_exact by lia.
  rewrite <- Z.mul_assoc, <- Z.pow_add_r by lia. do 2 f_equal. lia.
Qed.

Lemma rank_finite_bound (s : bool) (m : positive) (e : Z) :
  valid_binary prec emax (S754_finite s m e) = true ->
  -1074 <= e <= 971 /\ Zpos m < 2 ^ 53 /\ 0 < Zpos m * 2 ^ (e + 1074) < TOP.
Proof.
  intros Hv. apply valid_finite_iff in Hv. destruct Hv as [Hc He].
  assert (Hd : Zpos (digits2_pos m) <= 53 /\ -1074 <= e) by (unfold fexp64 in Hc; lia).
  destruct Hd as [Hd He'].
  pose proof (digits2_pos_bounds m) as [_ Hhi].
  pose proof (pow2_le (Zpos (digits2_pos m)) 53 ltac:(lia)) as Hd53.
  pose proof (pow2_pos (e + 1074) ltac:(lia)) as Hp.
  pose proof (pow2_BIG_le (e + 1074) ltac:(lia)) as Hle.
  pose proof TOP_split as HT. pose proof BIG_pos as HB.
  assert (H53 : 2 ^ 53 = 9007199254740992) by reflexivity. rewrite H53 in *.
  set (P := 2 ^ (e + 1074)) in *. clearbody P.
  set (D := 2 ^ Zpos (digits2_pos m)) in *. clearbody D.
  repeat split; try lia; nia.
Qed.

Lemma RZ_TOP : RZ TOP = TOP.
Proof.
  rewrite TOP_exp. rewrite <- (Z.mul_1_l (2 ^ 2098)).
  apply RZ_exact; [split; [lia|reflexivity]|lia].
Qed.

Lemma Rnd_rank (x : spec_float) :
  wf x -> Rnd (rank x) = rank x.
Proof.
  intros [Hv Hn]. destruct x as [s|s| |s m e]; cbn [rank].
  - reflexivity.
  - pose proof TOP_pos.
    assert (HR : Rnd TOP = TOP).
    { unfold Rnd. rewrite Z.sgn_pos, Z.abs_eq, RZ_TOP by lia. lia. }
    destruct s; cbn [cond_Zopp]; rewrite ?Rnd_opp, HR; reflexivity.
  - reflexivity.
  - destruct (rank_finite_bound s m e Hv) as [He [Hm Hr]].
    assert (HR : Rnd (Zpos m * 2 ^ (e + 1074)) = Zpos m * 2 ^ (e + 1074)).
    { unfold Rnd. rewrite Z.sgn_pos, Z.abs_eq by lia.
      rewrite RZ_exact by lia. lia. }
    destruct s; cbn [cond_Zopp]; rewrite ?Rnd_opp, HR; reflexivity.
Qed.

Lemma cond_Zopp_mul (s : bool) (a b : Z) : cond_Zopp s a * b = cond_Zopp s (a * b).
Proof. destruct s; cbn [cond_Zopp]; lia. Qed.

Lemma cond_Zopp_negb (s : bool) (a : Z) : cond_Zopp (negb s) a = - cond_Zopp s a.
Proof. destruct s; cbn [cond_Zopp negb]; lia. Qed.

Lemma wf_zero (s : bool) : wf (S754_zero s).
Proof. split; [reflexivity|discriminate]. Qed.

Lemma wf_finite_valid (s : bool) (m : positive) (e : Z) :
  wf (S754_finite s m e) -> valid_binary prec emax (S754_finite s m e) = true.
Proof. intros [H _]. exact H. Qed.

Lemma wf_finite_sign (s s' : bool) (m : positive) (e : Z) :
  wf (S754_finite s m e) -> wf (S754_finite s' m e).
Proof. intros [H _]. split; [exact H|discriminate]. Qed.

Lemma aligned_rank (s : bool) (m : positive) (e ez : Z) :
  -1074 <= ez <= e ->
  cond_Zopp s (Zpos (fst (shl_align m e ez))) * 2 ^ (ez + 1074) =
  rank (S754_finite s m e).
Proof.
  intros H. destruct (shl_align_spec m e ez) as [_ Hm].
  rewrite Hm, Z.min_r by lia. rewrite cond_Zopp_mul. cbn [rank]. f_equal.
  rewrite <- Z.mul_assoc, <- Z.pow_add_r by lia. do 2 f_equal. lia.
Qed.

Lemma SFadd_props (x y : spec_float) :
  wf x -> wf y -> Number_isFinite x = true -> Number_isFinite y = true ->
  wf (SFadd prec emax x y) /\
  rank (SFadd prec emax x y) = Rnd (rank x + rank y).
Proof.
  intros Hx Hy Fx Fy.
  destruct x as [sx|sx| |sx mx ex]; try discriminate;
  destruct y as [sy|sy| |sy my ey]; try discriminate.
  - split; [destruct sx, sy; apply wf_zero|]. destruct sx, sy; reflexivity.
  - cbn [SFadd]. split; [assumption|]. cbn [rank]. rewrite Z.add_0_l.
    symmetry. apply (Rnd_rank _ Hy).
  - cbn [SFadd]. split; [assumption|]. cbn [rank]. rewrite Z.add_0_r.
    symmetry. apply (Rnd_rank _ Hx).
  - destruct (rank_finite_bound _ _ _ (wf_finite_valid _ _ _ Hx)) as [Hex _].
    destruct (rank_finite_bound _ _ _ (wf_finite_valid _ _ _ Hy)) as [Hey _].
    cbn [SFadd]. set (ez := Z.min ex ey).
    destruct (binary_normalize_props
      (cond_Zopp sx (Zpos (fst (shl_align mx ex ez))) +
       cond_Zopp sy (Zpos (fst (shl_align my ey ez)))) ez ltac:(lia)) as [Hwf Hrk].
    split; [assumption|]. rewrite Hrk. f_equal.
    rewrite Z.mul_add_distr_r, !aligned_rank by lia. reflexivity.
Qed.

Lemma SFsub_props (x y : spec_float) :
  wf x -> wf y -> Number_isFinite x = true -> Number_isFinite y = true ->
  wf (SFsub prec emax x y) /\
  rank (SFsub prec emax x y) = Rnd (rank x - rank y).
Proof.
  intros Hx Hy Fx Fy.
  destruct x as [sx|sx| |sx mx ex]; try discriminate;
  destruct y as [sy|sy| |sy my ey]; try discriminate.
  - split; [destruct sx, sy; apply wf_zero|]. destruct sx, sy; reflexivity.
  - cbn [SFsub]. split; [apply (wf_finite_sign _ _ _ _ Hy)|].
    change (rank (S754_zero sx)) with 0. rewrite Z.sub_0_l, Rnd_opp.
    rewrite (Rnd_rank _ Hy). cbn [rank]. apply cond_Zopp_negb.
  - cbn [SFsub]. split; [assumption|]. cbn [rank]. rewrite Z.sub_0_r.
    symmetry. apply (Rnd_rank _ Hx).
  - destruct (rank_finite_bound _ _ _ (wf_finite_valid _ _ _ Hx)) as [Hex _].
    destruct (rank_finite_bound _ _ _ (wf_finite_valid _ _ _ Hy)) as [Hey _].
    cbn [SFsub]. set (ez := Z.min ex ey).
    destruct (binary_normalize_props
      (cond_Zopp sx (Zpos (fst (shl_align mx ex ez))) -
       cond_Zopp sy (Zpos (fst (shl_align my ey ez)))) ez ltac:(lia)) as [Hwf Hrk].
    split; [assumption|]. rewrite Hrk. f_equal.
    rewrite Z.mul_sub_distr_r, !aligned_rank by lia. reflexivity.
Qed.

Lemma rank_finite_lt (x : spec_float) :
  wf x -> (Number_isFinite x = true <-> - TOP < rank x < TOP).
Proof.
  intros [Hv Hn]. pose proof TOP_pos.
  destruct x as [s|s| |s m e]; cbn [rank Number_isFinite].
  - split; [lia|reflexivity].
  - split; [discriminate|]. destruct s; cbn [cond_Zopp]; lia.
  - congruence.
  - destruct (rank_finite_bound s m e Hv) as [_ [_ Hr]].
    split; [|reflexivity]. destruct s; cbn [cond_Zopp]; lia.
Qed.

(** ** Comparison is comparison of ranks *)

Lemma canonical_lt (m1 m2 : positive) (e1 e2 : Z) :
  valid_binary prec emax (S754_finite false m1 e1) = true ->
  valid_binary prec emax (S754_finite false m2 e2) = true ->
  e1 < e2 ->
  Zpos m1 * 2 ^ (e1 + 1074) < Zpos m2 * 2 ^ (e2 + 1074).
Proof.
  intros H1 H2 He.
  destruct (rank_finite_bound _ _ _ H1) as [He1 [Hm1 _]].
  apply valid_finite_iff in H2. destruct H2 as [Hc2 _].
  assert (Hd2 : Zpos (digits2_pos m2) = 53) by (unfold fexp64 in Hc2; lia).
  pose proof (digits2_pos_bounds m2) as [Hlo _]. rewrite Hd2 in Hlo.
  change (53 - 1) with 52 in Hlo.
  pose proof (pow2_pos (e1 + 1074) ltac:(lia)).
  pose proof (pow2_le (e1 + 1074 + 1) (e2 + 1074) ltac:(lia)) as Hp.
  rewrite Z.pow_add_r in Hp by lia. change (2 ^ 1) with 2 in Hp.
  assert (2 ^ 53 = 2 * 2 ^ 52) by reflexivity.
  nia.
Qed.

Ltac cmp_rank :=
  cbn [rank cond_Zopp] in *;
  first [ apply Z.compare_eq_iff; lia
        | apply Z.compare_lt_iff; lia
        | apply Z.compare_gt_iff; lia ].

Lemma compare_finite_same_sign (mx my : positive) (ex ey : Z) :
  valid_binary prec emax (S754_finite false mx ex) = true ->
  valid_binary prec emax (S754_finite false my ey) = true ->
  (Zpos mx * 2 ^ (ex + 1074) ?= Zpos my * 2 ^ (ey + 1074)) =
  match ex ?= ey with
  | Lt => Lt
  | Gt => Gt
  | Eq => Pos.compare_cont Eq mx my
  end.
Proof.
  intros Vx Vy.
  destruct (Z.compare_spec ex ey) as [He|He|He].
  - subst ey. rewrite Pos.compare_cont_spec. cbn [Pos.switch_Eq].
    rewrite Pos2Z.inj_compare.
    destruct (rank_finite_bound _ _ _ Vx) as [Hex _].
    pose proof (pow2_pos (ex + 1074) ltac:(lia)).
    destruct (Z.compare_spec (Zpos mx) (Zpos my));
      [apply Z.compare_eq_iff|apply Z.compare_lt_iff|apply Z.compare_gt_iff]; nia.
  - pose proof (canonical_lt _ _ _ _ Vx Vy He). apply Z.compare_lt_iff. lia.
  - pose proof (canonical_lt _ _ _ _ Vy Vx He). apply Z.compare_gt_iff. lia.
Qed.

Lemma SFcompare_rank (x y : spec_float) :
  wf x -> wf y -> SFcompare x y = Some (rank x ?= rank y).
Proof.
  intros Hx Hy. pose proof TOP_pos as HT.
  pose proof (rank_finite_lt x Hx) as Fx. pose proof (rank_finite_lt y Hy) as Fy.
  destruct Hx as [Vx Nx], Hy as [Vy Ny].
  destruct x as [sx|sx| |sx mx ex]; try congruence;
  destruct y as [sy|sy| |sy my ey]; try congruence;
  cbn [SFcompare]; f_equal; symmetry;
  try (pose proof (proj1 Fx eq_refl)); try (pose proof (proj1 Fy eq_refl));
  try (pose proof (rank_finite_bound _ _ _ Vx) as [_ [_ Bx]]);
  try (pose proof (rank_finite_bound _ _ _ Vy) as [_ [_ By]]).
  - destruct sy; cmp_rank.
  - destruct sy; cmp_rank.
  - destruct sx; cmp_rank.
  - destruct sx, sy; cmp_rank.
  - destruct sx, sy; cmp_rank.
  - destruct sx; cmp_rank.
  - destruct sx, sy; cmp_rank.
  - assert (Vx' : valid_binary prec emax (S754_finite false mx ex) = true) by exact Vx.
    assert (Vy' : valid_binary prec emax (S754_finite false my ey) = true) by exact Vy.
    pose proof (compare_finite_same_sign mx my ex ey Vx' Vy') as Hc.
    destruct sx, sy; try cmp_rank; cbn [rank cond_Zopp].
    + rewrite Z.compare_opp. rewrite Z.compare_antisym, Hc.
      destruct (ex ?= ey); reflexivity.
    + exact Hc.
Qed.

(** ** Multiplication by a positive normal constant *)

Lemma digits_mul_ge (mx mc : positive) :
  Zpos (digits2_pos mc) = 53 ->
  Zpos (digits2_pos (mx * mc)) >= 53.
Proof.
  intros Hc. apply digits_ge. change (53 - 1) with 52.
  pose proof (digits2_pos_bounds mc) as [Hlo _]. rewrite Hc in Hlo.
  change (53 - 1) with 52 in Hlo. rewrite Pos2Z.inj_mul. nia.
Qed.

Lemma mulR_nonneg (mc : positive) (ec r : Z) : 0 <= r -> 0 <= mulR mc ec r.
Proof.
  intros Hr. unfold mulR. pose proof TOP_pos.
  destruct (Z.eqb_spec r 0); [lia|].
  set (u := Z.max 0 (- ec)).
  pose proof (pow2_pos u ltac:(lia)). pose proof (pow2_pos (ec + u) ltac:(lia)).
  assert (0 <= RZu u (r * (Zpos mc * 2 ^ (ec + u)))) by (apply RZu_nonneg; nia).
  assert (0 <= RZu u (r * (Zpos mc * 2 ^ (ec + u))) / 2 ^ u) by (apply Z.div_pos; lia).
  lia.
Qed.

Lemma mulR_mono (mc : positive) (ec r1 r2 : Z) :
  0 <= r1 <= r2 -> mulR mc ec r1 <= mulR mc ec r2.
Proof.
  intros [H1 H12]. pose proof (mulR_nonneg mc ec r2 ltac:(lia)) as Hn2.
  unfold mulR in *.
  destruct (Z.eqb_spec r1 0); [destruct (Z.eqb_spec r2 0); lia|].
  destruct (Z.eqb_spec r2 0); [lia|].
  set (u := Z.max 0 (- ec)) in *.
  pose proof (pow2_pos u ltac:(lia)). pose proof (pow2_pos (ec + u) ltac:(lia)).
  apply Z.min_le_compat_r. apply Z.div_le_mono; [lia|].
  apply RZu_mono; [lia|]. nia.
Qed.

Lemma SFmul_pos_props (x : spec_float) (mc : positive) (ec : Z) :
  wf x -> Number_isFinite x = true -> 0 <= rank x ->
  valid_binary prec emax (S754_finite false mc ec) = true ->
  Zpos (digits2_pos mc) = 53 ->
  wf (SFmul prec emax x (S754_finite false mc ec)) /\
  rank (SFmul prec emax x (S754_finite false mc ec)) = mulR mc ec (rank x).
Proof.
  intros Hx Fx Rx Vc Dc.
  destruct x as [sx|sx| |sx mx ex]; try discriminate.
  - cbn [SFmul]. split; [apply wf_zero|reflexivity].
  - destruct (rank_finite_bound _ _ _ (wf_finite_valid _ _ _ Hx)) as [Hex [_ Hr]].
    destruct (rank_finite_bound _ _ _ Vc) as [Hec _].
    assert (sx = false) by (destruct sx; [cbn [rank cond_Zopp] in Rx; lia|reflexivity]).
    subst sx. cbn [SFmul xorb rank cond_Zopp].
    pose proof (digits_mul_ge mx mc Dc) as Hd.
    assert (Hpre : ex + ec <= fexp64 (Zpos (digits2_pos (mx * mc)) + (ex + ec)))
      by (unfold fexp64; lia).
    rewrite bra_spec by assumption.
    destruct (round_spec_props false (mx * mc) (ex + ec) Hpre) as [Hwf Hrk].
    split; [assumption|]. rewrite Hrk. cbn [cond_Zopp]. unfold mulR.
    replace (_ =? 0) with false by (symmetry; apply Z.eqb_neq; lia).
    set (u := Z.max 0 (- ec)).
    pose proof (pow2_pos u ltac:(lia)).
    f_equal.
    pose proof (RV_RZu (mx * mc) (ex + ec) u Hpre ltac:(lia) ltac:(lia)) as HR.
    replace (Zpos mx * 2 ^ (ex + 1074) * (Zpos mc * 2 ^ (ec + u)))
      with (Zpos (mx * mc) * 2 ^ (ex + ec + 1074 + u)).
    + rewrite <- HR. rewrite Z.div_mul by lia. reflexivity.
    + rewrite Pos2Z.inj_mul.
      replace (ex + ec + 1074 + u) with ((ex + 1074) + (ec + u)) by lia.
      rewrite Z.pow_add_r by lia. lia.
Qed.

(** ** The Math functions *)

Lemma Math_max_props (a b : number) :
  wf a -> wf b ->
  wf (Math_max a b) /\ rank (Math_max a b) = Z.max (rank a) (rank b).
Proof.
  intros Ha Hb. unfold Math_max. rewrite (SFcompare_rank a b Ha Hb).
  destruct (Z.compare_spec (rank a) (rank b)) as [He|Hl|Hg].
  - assert (wf a /\ rank a = Z.max (rank a) (rank b)) by (split; [assumption|lia]).
    destruct a as [[|]| | |]; try assumption.
    destruct b as [[|]| | |]; try assumption.
    split; [assumption|reflexivity].
  - split; [assumption|lia].
  - split; [assumption|lia].
Qed.

Lemma Math_min_props (a b : number) :
  wf a -> wf b ->
  wf (Math_min a b) /\ rank (Math_min a b) = Z.min (rank a) (rank b).
Proof.
  intros Ha Hb. unfold Math_min. rewrite (SFcompare_rank a b Ha Hb).
  destruct (Z.compare_spec (rank a) (rank b)) as [He|Hl|Hg].
  - assert (wf a /\ rank a = Z.min (rank a) (rank b)) by (split; [assumption|lia]).
    destruct a as [[|]| | |]; try assumption.
    destruct b as [[|]| | |]; try assumption.
    split; [assumption|reflexivity].
  - split; [assumption|lia].
  - split; [assumption|lia].
Qed.

Lemma Math_abs_props (x : number) :
  wf x -> wf (Math_abs x) /\ rank (Math_abs x) = Z.abs (rank x).
Proof.
  intros [Hv Hn]. pose proof TOP_pos.
  destruct x as [s|s| |s m e]; try congruence; cbn [Math_abs SFabs rank].
  - split; [apply wf_zero|reflexivity].
  - split; [split; [reflexivity|discriminate]|]. destruct s; cbn [cond_Zopp]; lia.
  - destruct (rank_finite_bound _ _ _ Hv) as [_ [_ Hr]].
    split; [split; [exact Hv|discriminate]|]. destruct s; cbn [cond_Zopp]; lia.
Qed.

Lemma num_le_rank (x y : number) :
  wf x -> wf y -> (num_le x y = true <-> rank x <= rank y).
Proof.
  intros Hx Hy. unfold num_le, SFleb. rewrite (SFcompare_rank x y Hx Hy).
  destruct (Z.compare_spec (rank x) (rank y)); split; intros; try lia; try reflexivity; discriminate.
Qed.

Lemma num_lt_rank (x y : number) :
  wf x -> wf y -> (num_lt x y = true <-> rank x < rank y).
Proof.
  intros Hx Hy. unfold num_lt, SFltb. rewrite (SFcompare_rank x y Hx Hy).
  destruct (Z.compare_spec (rank x) (rank y)); split; intros; try lia; try reflexivity; discriminate.
Qed.

(** ** Integer literals and finite ranges *)

Lemma int_rank_bound (z : Z) : Z.abs z < 2 ^ 53 -> Z.abs z * ONE < TOP.
Proof.
  intros Hz. rewrite TOP_split, BIG_split.
  assert (H53 : 2 ^ 53 = 9007199254740992) by reflexivity. rewrite H53 in *.
  pose proof ONE_pos. pose proof (pow2_pos 971 ltac:(lia)).
  set (A := 2 ^ 971) in *. clearbody A.
  pose proof (Z.abs_nonneg z). nia.
Qed.

Lemma RZ_int (z : Z) : 0 < z < 2 ^ 53 -> RZ (z * ONE) = z * ONE.
Proof. intros Hz. rewrite ONE_exp. apply RZ_exact; lia. Qed.

Lemma Rnd_int (z : Z) : Z.abs z < 2 ^ 53 -> Rnd (z * ONE) = z * ONE.
Proof.
  intros Hz. pose proof (int_rank_bound z Hz) as Hb.
  pose proof ONE_pos as Hp.
  unfold Rnd. rewrite Z.sgn_mul, Z.abs_mul.
  rewrite (Z.sgn_pos ONE), (Z.abs_eq ONE) by lia.
  destruct (Z.eq_dec z 0) as [->|Hnz]; [reflexivity|].
  rewrite RZ_int by lia. rewrite Z.min_l by lia.
  destruct (Z.sgn_spec z) as [[S1 ->]|[[S1 ->]|[S1 ->]]];
    [rewrite Z.abs_eq by lia|lia|rewrite Z.abs_neq by lia]; lia.
Qed.

Lemma of_Z_props (z : Z) :
  Z.abs z < 2 ^ 53 ->
  wf (of_Z z) /\ rank (of_Z z) = z * ONE /\ Number_isFinite (of_Z z) = true.
Proof.
  intros Hz. unfold of_Z.
  destruct (binary_normalize_props z 0 ltac:(lia)) as [Hwf Hrk].
  change (0 + 1074) with 1074 in Hrk. rewrite <- ONE_exp in Hrk.
  rewrite Rnd_int in Hrk by assumption.
  split; [assumption|]. split; [assumption|].
  apply (rank_finite_lt _ Hwf). rewrite Hrk.
  pose proof (int_rank_bound z Hz). pose proof ONE_pos. pose proof TOP_pos.
  destruct (Z.abs_spec z) as [[? E]|[? E]]; rewrite E in *; nia.
Qed.

Lemma finite_rank_max (x : number) :
  wf x -> Number_isFinite x = true -> - MAXR <= rank x <= MAXR.
Proof.
  intros [Hv Hn] Hf. unfold MAXR. pose proof BIG_pos as HB.
  assert (H53 : 2 ^ 53 = 9007199254740992) by reflexivity. rewrite H53 in *.
  destruct x as [s|s| |s m e]; try discriminate; cbn [rank].
  - lia.
  - destruct (rank_finite_bound _ _ _ Hv) as [He [Hm Hr]]. rewrite H53 in Hm.
    pose proof (pow2_pos (e + 1074) ltac:(lia)) as Hp.
    pose proof (pow2_BIG_le (e + 1074) ltac:(lia)) as Hle.
    set (P := 2 ^ (e + 1074)) in *. clearbody P.
    assert (Zpos m * P <= 9007199254740991 * BIG) by nia.
    destruct s; cbn [cond_Zopp]; lia.
Qed.

Lemma MAXR_lt_TOP : MAXR < TOP.
Proof.
  unfold MAXR. rewrite TOP_split. pose proof BIG_pos.
  assert (H53 : 2 ^ 53 = 9007199254740992) by reflexivity. rewrite H53. lia.
Qed.

Lemma MAXR_nonneg : 0 <= MAXR.
Proof.
  unfold MAXR. pose proof BIG_pos.
  assert (H53 : 2 ^ 53 = 9007199254740992) by reflexivity. rewrite H53. lia.
Qed.

Lemma subR_anti (rx r1 r2 : Z) :
  - TOP <= r1 <= r2 -> r2 <= TOP -> subR rx r2 <= subR rx r1.
Proof.
  intros H1 H2. unfold subR. pose proof TOP_pos.
  pose proof (Rnd_bounds (rx - r1)). pose proof (Rnd_bounds (rx - r2)).
  destruct (Z.eqb_spec r2 TOP); destruct (Z.eqb_spec r1 TOP); try lia;
  destruct (Z.eqb_spec r2 (- TOP)); destruct (Z.eqb_spec r1 (- TOP)); try lia.
  apply Rnd_mono. lia.
Qed.

Lemma SFsub_ext_props (x y : number) :
  wf x -> wf y -> Number_isFinite x = true ->
  wf (num_sub x y) /\ rank (num_sub x y) = subR (rank x) (rank y).
Proof.
  intros Hx Hy Fx. pose proof TOP_pos.
  destruct (Number_isFinite y) eqn:Fy.
  - destruct (SFsub_props x y Hx Hy Fx Fy) as [Hwf Hrk].
    split; [assumption|]. unfold num_sub. rewrite Hrk.
    pose proof (proj1 (rank_finite_lt y Hy) Fy). unfold subR.
    destruct (Z.eqb_spec (rank y) TOP); [lia|].
    destruct (Z.eqb_spec (rank y) (- TOP)); [lia|]. reflexivity.
  - destruct Hy as [Vy Ny].
    destruct y as [sy|sy| |sy my ey]; try discriminate; try congruence.
    destruct x as [sx|sx| |sx mx ex]; try discriminate;
      cbn [num_sub SFsub];
      (split; [split; [reflexivity|discriminate]|]);
      unfold subR; destruct sy; cbn [rank cond_Zopp negb];
      rewrite ?Z.eqb_refl;
      try reflexivity;
      (destruct (Z.eqb_spec (- TOP) TOP); [lia|reflexivity]).
Qed.

(** ** The three terms

    Each term is [max (0, C - x * c)] for a non-negative finite x.  Adding or
    subtracting 45 from the largest finite number rounds back to it, so the
    distance from 45 never overflows. *)

Lemma Rnd_45_MAXR : Rnd (45 * ONE + MAXR) = MAXR.
Proof. vm_compute. reflexivity. Qed.

Lemma Rnd_45_MAXR' : Rnd (45 * ONE - MAXR) = - MAXR.
Proof. vm_compute. reflexivity. Qed.

Lemma decimal_7_10 : decimal 7 10 = S754_finite false 6305039478318694 (-53).
Proof. vm_compute. reflexivity. Qed.

Lemma decimal_5_10 : decimal 5 10 = S754_finite false 4503599627370496 (-53).
Proof. vm_compute. reflexivity. Qed.

Lemma of_Z_2 : of_Z 2 = S754_finite false 4503599627370496 (-51).
Proof. vm_compute. reflexivity. Qed.

Lemma mulR_le_TOP (mc : positive) (ec r : Z) : mulR mc ec r <= TOP.
Proof.
  unfold mulR. pose proof TOP_pos. destruct (r =? 0); lia.
Qed.

Section Term.

Variables (C : Z) (mc : positive) (ec : Z).
Hypothesis HC : 0 <= C < 2 ^ 53.

Lemma termR_anti (r1 r2 : Z) :
  0 <= r1 <= r2 -> termR C mc ec r2 <= termR C mc ec r1.
Proof.
  intros H. unfold termR. apply Z.max_le_compat_l.
  pose proof TOP_pos.
  apply subR_anti.
  - pose proof (mulR_nonneg mc ec r1 ltac:(lia)).
    pose proof (mulR_mono mc ec r1 r2 H). lia.
  - apply mulR_le_TOP.
Qed.

Lemma termR_bounds (r : Z) :
  0 <= r -> 0 <= termR C mc ec r <= C * ONE.
Proof.
  intros Hr. unfold termR. split; [lia|].
  pose proof ONE_pos.
  apply Z.max_lub; [nia|].
  pose proof TOP_pos.
  pose proof (mulR_nonneg mc ec r Hr). pose proof (mulR_le_TOP mc ec r).
  pose proof (subR_anti (C * ONE) 0 (mulR mc ec r) ltac:(lia) ltac:(lia)) as Ha.
  assert (E : subR (C * ONE) 0 = C * ONE).
  { unfold subR. destruct (Z.eqb_spec 0 TOP); [lia|].
    destruct (Z.eqb_spec 0 (- TOP)); [lia|].
    rewrite Z.sub_0_r. apply Rnd_int. rewrite Z.abs_eq; lia. }
  lia.
Qed.

Lemma term_props (X : number) :
  wf X -> Number_isFinite X = true -> 0 <= rank X ->
  valid_binary prec emax (S754_finite false mc ec) = true ->
  Zpos (digits2_pos mc) = 53 ->
  let T := Math_max (of_Z 0) (num_sub (of_Z C) (num_mul X (S754_finite false mc ec))) in
  wf T /\ rank T = termR C mc ec (rank X).
Proof.
  intros HX FX RX Vc Dc T.
  destruct (SFmul_pos_props X mc ec HX FX RX Vc Dc) as [Hm Rm].
  destruct (of_Z_props C ltac:(rewrite Z.abs_eq; lia)) as [HwC [RC FC]].
  destruct (of_Z_props 0 ltac:(reflexivity)) as [Hw0 [R0 _]].
  destruct (SFsub_ext_props (of_Z C) _ HwC Hm FC) as [Hs Rs].
  destruct (Math_max_props (of_Z 0) _ Hw0 Hs) as [Hmax Rmax].
  split; [exact Hmax|].
  subst T. unfold num_mul in *. rewrite Rmax, Rs, Rm, R0, RC. reflexivity.
Qed.

End Term.

(** ** clampScore *)

Lemma compare_scaled (a b : Z) : (a * ONE ?= b * ONE) = (a ?= b).
Proof.
  symmetry. apply Zmult_compare_compat_r.
  pose proof ONE_pos. lia.
Qed.

Lemma Math_min_of_Z (a b : Z) :
  Z.abs a < 2 ^ 53 -> Z.abs b < 2 ^ 53 ->
  Math_min (of_Z a) (of_Z b) = of_Z (Z.min a b).
Proof.
  intros Ha Hb.
  destruct (of_Z_props a Ha) as [Wa [Ra _]]. destruct (of_Z_props b Hb) as [Wb [Rb _]].
  unfold Math_min. rewrite (SFcompare_rank _ _ Wa Wb), Ra, Rb, compare_scaled.
  destruct (Z.compare_spec a b) as [He|Hl|Hg].
  - subst b. rewrite Z.min_id. destruct (of_Z a) as [[|]| | |]; reflexivity.
  - rewrite Z.min_l by lia. reflexivity.
  - rewrite Z.min_r by lia. reflexivity.
Qed.

Lemma Math_max_of_Z (a b : Z) :
  Z.abs a < 2 ^ 53 -> Z.abs b < 2 ^ 53 ->
  Math_max (of_Z a) (of_Z b) = of_Z (Z.max a b).
Proof.
  intros Ha Hb.
  destruct (of_Z_props a Ha) as [Wa [Ra _]]. destruct (of_Z_props b Hb) as [Wb [Rb _]].
  unfold Math_max. rewrite (SFcompare_rank _ _ Wa Wb), Ra, Rb, compare_scaled.
  destruct (Z.compare_spec a b) as [He|Hl|Hg].
  - subst b. rewrite Z.max_id. destruct (of_Z a) as [[|]| | |]; reflexivity.
  - rewrite Z.max_r by lia. reflexivity.
  - rewrite Z.max_l by lia. reflexivity.
Qed.

Lemma round_half_up_small (s : bool) (m : positive) (e : Z) :
  Zpos m < 2 ^ 53 -> e < 0 -> Z.abs (round_half_up s m e) < 2 ^ 53.
Proof.
  intros Hm He. unfold round_half_up.
  replace (0 <=? e) with false by (symmetry; apply Z.leb_gt; lia).
  set (k := - e). assert (Hk : 1 <= k) by lia.
  replace (1 - e) with (k + 1) by lia.
  pose proof (pow2_pos k ltac:(lia)) as Hp.
  pose proof (pow2_le 1 k ltac:(lia)) as Hp1. change (2 ^ 1) with 2 in Hp1.
  assert (E : 2 ^ (k + 1) = 2 ^ k * 2) by (rewrite Z.pow_add_r by lia; reflexivity).
  assert (H53 : 2 ^ 53 = 9007199254740992) by reflexivity.
  rewrite H53 in *.
  assert (-9007199254740992 < (2 * cond_Zopp s (Zpos m) + 2 ^ k) / 2 ^ (k + 1) < 9007199254740992);
    [|lia].
  split.
  - apply Z.lt_le_trans with (- 4503599627370496); [lia|].
    apply Z.div_le_lower_bound; [lia|]. rewrite E.
    destruct s; cbn [cond_Zopp]; nia.
  - apply Z.div_lt_upper_bound; [lia|]. rewrite E.
    destruct s; cbn [cond_Zopp]; nia.
Qed.

Lemma clamp_zero (s : bool) :
  Math_max (of_Z 0) (Math_min (of_Z 100) (S754_zero s)) = of_Z 0.
Proof. destruct s; vm_compute; reflexivity. Qed.

Lemma clampScore_finite (v : number) :
  wf v -> Number_isFinite v = true ->
  clampScore v = of_Z (clamp100 (nearest_int v)).
Proof.
  intros Hv Fv. unfold clampScore. rewrite Fv. cbn [negb].
  destruct v as [s|s| |s m e]; try discriminate.
  - cbn [Math_round nearest_int]. apply clamp_zero.
  - cbn [Math_round nearest_int].
    destruct (rank_finite_bound _ _ _ (wf_finite_valid _ _ _ Hv)) as [Hex [Hm Hr]].
    destruct (of_Z_props 100 ltac:(reflexivity)) as [W100 [R100 _]].
    destruct (of_Z_props 0 ltac:(reflexivity)) as [W0 [R0 _]].
    destruct (Z.leb_spec 0 e) as [He|He].
    + (* integral value of magnitude at least 2^52 *)
      unfold round_half_up. replace (0 <=? e) with true by (symmetry; apply Z.leb_le; lia).
      assert (Hd : Zpos (digits2_pos m) = 53).
      { pose proof (proj1 (valid_finite_iff s m e) (wf_finite_valid _ _ _ Hv)) as [Hc _].
        unfold fexp64 in Hc. lia. }
      pose proof (digits2_pos_bounds m) as [Hlo _]. rewrite Hd in Hlo.
      change (53 - 1) with 52 in Hlo.
      assert (H52 : 2 ^ 52 = 4503599627370496) by reflexivity. rewrite H52 in Hlo.
      pose proof (pow2_pos e He) as Hpe.
      pose proof ONE_pos as Hp.
      assert (Hbig : 100 * ONE < Zpos m * 2 ^ (e + 1074)).
      { rewrite pow2_ONE_above by lia.
        assert (4503599627370496 <= Zpos m * 2 ^ e) by nia.
        rewrite Z.mul_assoc. apply Z.lt_le_trans with (4503599627370496 * ONE); [lia|].
        apply Z.mul_le_mono_nonneg_r; lia. }
      destruct s; cbn [cond_Zopp].
      * unfold Math_min. rewrite (SFcompare_rank _ _ W100 Hv), R100. cbn [rank cond_Zopp].
        replace (_ ?= _) with Gt by (symmetry; apply Z.compare_gt_iff; lia).
        unfold Math_max. rewrite (SFcompare_rank _ _ W0 Hv), R0. cbn [rank cond_Zopp].
        replace (_ ?= _) with Gt by (symmetry; apply Z.compare_gt_iff; lia).
        unfold clamp100. f_equal. nia.
      * unfold Math_min. rewrite (SFcompare_rank _ _ W100 Hv), R100. cbn [rank cond_Zopp].
        replace (_ ?= _) with Lt by (symmetry; apply Z.compare_lt_iff; lia).
        rewrite Math_max_of_Z by reflexivity.
        unfold clamp100. f_equal. nia.
    + pose proof (round_half_up_small s m e Hm He) as Hz.
      replace (0 <=? e) with false by (symmetry; apply Z.leb_gt; lia).
      cbv zeta. destruct (Z.eqb_spec (round_half_up s m e) 0) as [E0|E0].
      * rewrite E0. apply clamp_zero.
      * rewrite Math_min_of_Z by (try reflexivity; assumption).
        rewrite Math_max_of_Z; [reflexivity|reflexivity|].
        assert (2 ^ 53 = 9007199254740992) by reflexivity. lia.
Qed.

Lemma clampScore_not_finite (v : number) :
  Number_isFinite v = false -> clampScore v = of_Z 0.
Proof. intros Fv. unfold clampScore. rewrite Fv. reflexivity. Qed.

Lemma nearest_int_bounds (v : number) (a b : Z) :
  wf v -> Number_isFinite v = true ->
  a * ONE <= rank v <= b * ONE ->
  a <= nearest_int v <= b.
Proof.
  intros Hv Fv [Ha Hb]. pose proof ONE_pos as Hp.
  destruct Hv as [Vv Nv].
  destruct v as [s|s| |s m e]; try discriminate; cbn [nearest_int rank] in *.
  - nia.
  - destruct (rank_finite_bound _ _ _ Vv) as [Hex _].
    unfold round_half_up. destruct (Z.leb_spec 0 e) as [He|He].
    + rewrite <- cond_Zopp_mul in *. rewrite pow2_ONE_above in * by lia.
      pose proof (pow2_pos e He). nia.
    + set (k := - e) in *. assert (Hk : 1 <= k) by lia.
      replace (1 - e) with (k + 1) by lia.
      pose proof (pow2_pos k ltac:(lia)) as Hpk.
      assert (E : 2 ^ (k + 1) = 2 ^ k * 2) by (rewrite Z.pow_add_r by lia; reflexivity).
      assert (E2 : ONE = 2 ^ (e + 1074) * 2 ^ k) by (apply pow2_ONE_below; lia).
      pose proof (pow2_pos (e + 1074) ltac:(lia)) as Hpe.
      rewrite <- cond_Zopp_mul in *. rewrite E2 in Ha, Hb.
      assert (Ha' : a * 2 ^ k <= cond_Zopp s (Zpos m)) by nia.
      assert (Hb' : cond_Zopp s (Zpos m) <= b * 2 ^ k) by nia.
      split.
      * apply Z.div_le_lower_bound; [lia|]. rewrite E. nia.
      * assert ((2 * cond_Zopp s (Z.pos m) + 2 ^ k) / 2 ^ (k + 1) < b + 1); [|lia].
        apply Z.div_lt_upper_bound; [lia|]. rewrite E. nia.
Qed.

(** ** Normalized readings and the raw score *)

Lemma finite_wf (v : number) : binary64 v -> Number_isFinite v = true -> wf v.
Proof. intros Hv Fv. split; [exact Hv|]. destruct v; discriminate. Qed.

Lemma toFiniteNumber_props (f : field) (z : Z) :
  valid_field f -> Z.abs z < 2 ^ 53 ->
  wf (toFiniteNumber f (of_Z z)) /\ Number_isFinite (toFiniteNumber f (of_Z z)) = true.
Proof.
  intros Hf Hz. destruct (of_Z_props z Hz) as [W [_ F]].
  destruct f as [| |v]; cbn [toFiniteNumber]; try (split; assumption).
  destruct (Number_isFinite v) eqn:Fv; [|split; assumption].
  split; [apply finite_wf; assumption|assumption].
Qed.

Lemma finite_of_rank (x : number) :
  wf x -> - MAXR <= rank x <= MAXR -> Number_isFinite x = true.
Proof.
  intros Hx Hr. apply (rank_finite_lt x Hx). pose proof MAXR_lt_TOP. lia.
Qed.

Lemma cloud_distance_props (c : number) :
  wf c -> Number_isFinite c = true ->
  let X := Math_abs (num_sub (of_Z 45) c) in
  wf X /\ Number_isFinite X = true /\ rank X = Z.abs (Rnd (45 * ONE - rank c)).
Proof.
  intros Hc Fc X.
  destruct (of_Z_props 45 ltac:(reflexivity)) as [W45 [R45 F45]].
  destruct (SFsub_props _ _ W45 Hc F45 Fc) as [Ws Rs]. rewrite R45 in Rs.
  destruct (Math_abs_props _ Ws) as [Wa Ra].
  pose proof (finite_rank_max c Hc Fc) as Hm.
  pose proof (Rnd_mono (45 * ONE - MAXR) (45 * ONE - rank c) ltac:(lia)) as H1.
  pose proof (Rnd_mono (45 * ONE - rank c) (45 * ONE + MAXR) ltac:(lia)) as H2.
  rewrite Rnd_45_MAXR in H2. rewrite Rnd_45_MAXR' in H1.
  subst X. unfold num_sub in *. rewrite Ra, Rs.
  split; [assumption|]. split; [|reflexivity].
  apply finite_of_rank; [assumption|]. rewrite Ra, Rs. lia.
Qed.

Lemma excess_props (x : number) (z : Z) :
  wf x -> Number_isFinite x = true -> 0 <= z < 2 ^ 53 ->
  let X := Math_max (of_Z 0) (num_sub x (of_Z z)) in
  wf X /\ Number_isFinite X = true /\ rank X = Z.max 0 (Rnd (rank x - z * ONE)) /\
  0 <= rank X.
Proof.
  intros Hx Fx Hz X.
  destruct (of_Z_props z ltac:(rewrite Z.abs_eq; lia)) as [Wz [Rz Fz]].
  destruct (of_Z_props 0 ltac:(reflexivity)) as [W0 [R0 F0]].
  destruct (SFsub_props _ _ Hx Wz Fx Fz) as [Ws Rs]. rewrite Rz in Rs.
  destruct (Math_max_props _ _ W0 Ws) as [Wm Rm]. rewrite R0 in Rm.
  change (0 * ONE) with 0 in Rm.
  pose proof (finite_rank_max x Hx Fx) as Hm.
  pose proof ONE_pos as Hp.
  pose proof (Rnd_mono (rank x - z * ONE) (rank x) ltac:(nia)) as H1.
  rewrite (Rnd_rank x Hx) in H1.
  pose proof MAXR_lt_TOP. pose proof TOP_pos.
  subst X. unfold num_sub in *. rewrite Rm, Rs.
  split; [assumption|]. split; [|split; [reflexivity|lia]].
  apply finite_of_rank; [assumption|]. rewrite Rm, Rs.
  pose proof MAXR_nonneg. lia.
Qed.

Lemma cloudTerm_props (c : number) :
  wf c -> Number_isFinite c = true ->
  wf (cloudTerm c) /\ rank (cloudTerm c) = cloudR (rank c).
Proof.
  intros Hc Fc. destruct (cloud_distance_props c Hc Fc) as [WX [FX RX]].
  unfold cloudTerm, cloudR. rewrite decimal_7_10, <- RX.
  apply term_props; try assumption; try reflexivity.
  - split; [lia|reflexivity].
  - rewrite RX. apply Z.abs_nonneg.
Qed.

Lemma humidityTerm_props (h : number) :
  wf h -> Number_isFinite h = true ->
  wf (humidityTerm h) /\ rank (humidityTerm h) = humidityR (rank h).
Proof.
  intros Hh Fh.
  destruct (excess_props h 55 Hh Fh ltac:(split; [lia|reflexivity])) as [WX [FX [RX PX]]].
  unfold humidityTerm, humidityR. rewrite decimal_5_10, <- RX.
  apply term_props; try assumption; try reflexivity.
  split; [lia|reflexivity].
Qed.

Lemma pmTerm_props (p : number) :
  wf p -> Number_isFinite p = true ->
  wf (pmTerm p) /\ rank (pmTerm p) = pmR (rank p).
Proof.
  intros Hp Fp.
  destruct (excess_props p 12 Hp Fp ltac:(split; [lia|reflexivity])) as [WX [FX [RX PX]]].
  unfold pmTerm, pmR. rewrite of_Z_2, <- RX.
  apply term_props; try assumption; try reflexivity.
  split; [lia|reflexivity].
Qed.

Lemma scaled_finite (x : number) (a b : Z) :
  wf x -> a * ONE <= rank x <= b * ONE ->
  Z.abs a < 2 ^ 53 -> Z.abs b < 2 ^ 53 ->
  Number_isFinite x = true.
Proof.
  intros Hx Hr Ha Hb. apply (rank_finite_lt x Hx).
  pose proof (int_rank_bound a Ha). pose proof (int_rank_bound b Hb).
  pose proof ONE_pos.
  destruct (Z.abs_spec a) as [[? Ea]|[? Ea]]; rewrite Ea in *;
  destruct (Z.abs_spec b) as [[? Eb]|[? Eb]]; rewrite Eb in *; nia.
Qed.

Lemma add_bounds (x y : number) (a b c d : Z) :
  wf x -> wf y ->
  a * ONE <= rank x <= b * ONE ->
  c * ONE <= rank y <= d * ONE ->
  Z.abs a < 2 ^ 53 -> Z.abs b < 2 ^ 53 -> Z.abs c < 2 ^ 53 -> Z.abs d < 2 ^ 53 ->
  Z.abs (a + c) < 2 ^ 53 -> Z.abs (b + d) < 2 ^ 53 ->
  wf (num_add x y) /\
  (a + c) * ONE <= rank (num_add x y) <= (b + d) * ONE.
Proof.
  intros Hx Hy Rx Ry Ha Hb Hc Hd Hac Hbd.
  pose proof (scaled_finite x a b Hx Rx Ha Hb) as Fx.
  pose proof (scaled_finite y c d Hy Ry Hc Hd) as Fy.
  destruct (SFadd_props x y Hx Hy Fx Fy) as [W R].
  split; [exact W|]. unfold num_add. rewrite R.
  rewrite <- (Rnd_int (a + c) Hac), <- (Rnd_int (b + d) Hbd).
  split; apply Rnd_mono; lia.
Qed.

Lemma rawScore_props (p : Predicted) :
  valid_reading p ->
  wf (rawScore p) /\ 15 * ONE <= rank (rawScore p) <= 100 * ONE.
Proof.
  intros [Vc [Vh Vp]]. unfold rawScore.
  destruct (toFiniteNumber_props _ 60 Vc ltac:(reflexivity)) as [Wc Fc].
  destruct (toFiniteNumber_props _ 65 Vh ltac:(reflexivity)) as [Wh Fh].
  destruct (toFiniteNumber_props _ 12 Vp ltac:(reflexivity)) as [Wp Fp].
  set (clouds := toFiniteNumber (cloudCover_pct p) (of_Z 60)) in *.
  set (humidity := toFiniteNumber (humidity_pct p) (of_Z 65)) in *.
  set (pm := toFiniteNumber (pm25_ugm3 p) (of_Z 12)) in *.
  cbv zeta.
  destruct (cloudTerm_props clouds Wc Fc) as [W1 R1].
  destruct (humidityTerm_props humidity Wh Fh) as [W2 R2].
  destruct (pmTerm_props pm Wp Fp) as [W3 R3].
  pose proof (termR_bounds 35 m0_7 (-53) ltac:(split; [lia|reflexivity])
                (Z.abs (Rnd (45 * ONE - rank clouds))) (Z.abs_nonneg _)) as B1.
  pose proof (termR_bounds 20 m0_5 (-53) ltac:(split; [lia|reflexivity])
                (Z.max 0 (Rnd (rank humidity - 55 * ONE))) ltac:(lia)) as B2.
  pose proof (termR_bounds 30 m2 (-51) ltac:(split; [lia|reflexivity])
                (Z.max 0 (Rnd (rank pm - 12 * ONE))) ltac:(lia)) as B3.
  fold (cloudR (rank clouds)) in B1. fold (humidityR (rank humidity)) in B2.
  fold (pmR (rank pm)) in B3. rewrite <- R1 in B1. rewrite <- R2 in B2. rewrite <- R3 in B3.
  destruct (of_Z_props 15 ltac:(reflexivity)) as [W15 [R15 _]].
  destruct (add_bounds _ _ 0 35 0 20 W1 W2 B1 B2) as [W12 B12]; try reflexivity.
  destruct (add_bounds _ _ 0 55 0 30 W12 W3 B12 B3) as [W123 B123]; try reflexivity.
  destruct (add_bounds _ _ 0 85 15 15 W123 W15 B123 ltac:(unfold baseline; rewrite R15; lia))
    as [W B]; try reflexivity.
  split; [exact W|exact B].
Qed.

(** ** Math.round picks the nearest integer, ties upwards *)

Lemma nearest_int_half_up (v : number) :
  nearest_half_up v (nearest_int v).
Proof.
  unfold nearest_half_up.
  destruct v as [s|s| |s m e]; cbn [nearest_int SF2Q];
    try (unfold Qle, Qlt; cbn; lia).
  unfold round_half_up. destruct (Z.leb_spec 0 e) as [He|He].
  - unfold Qle, Qlt, Qminus, Qplus, Qopp, inject_Z. cbn [Qnum Qden]. lia.
  - set (k := - e). assert (Hk : 1 <= k) by lia.
    replace (1 - e) with (k + 1) by lia.
    pose proof (pow2_pos k ltac:(lia)) as Hp.
    assert (E : 2 ^ (k + 1) = 2 * 2 ^ k) by (rewrite Z.pow_add_r by lia; change (2 ^ 1) with 2; lia).
    assert (ED : Zpos (2 ^ Z.to_pos k) = 2 ^ k).
    { rewrite Pos2Z.inj_pow, Z2Pos.id by lia. reflexivity. }
    set (M := cond_Zopp s (Zpos m)).
    pose proof (Z.mul_div_le (2 * M + 2 ^ k) (2 ^ (k + 1)) ltac:(lia)) as H1.
    pose proof (Z.mul_succ_div_gt (2 * M + 2 ^ k) (2 ^ (k + 1)) ltac:(lia)) as H2.
    set (z := (2 * M + 2 ^ k) / 2 ^ (k + 1)) in *.
    unfold Qle, Qlt, Qminus, Qplus, Qopp, inject_Z. cbn [Qnum Qden].
    rewrite ED. rewrite E in H1, H2. split; nia.
Qed.

(* Math.round (2.5) = 3, Math.round (-1.5) = -1, Math.round (-0.5) = -0 and
   Math.round (0.4) = +0 *)
Example Math_round_ties :
  Math_round (decimal 25 10) = of_Z 3 /\
  Math_round (decimal (-15) 10) = of_Z (-1) /\
  Math_round (decimal (-5) 10) = S754_zero true /\
  Math_round (decimal 4 10) = S754_zero false.
Proof. vm_compute. repeat split. Qed.

(** ** Monotonicity of the terms *)

Lemma steps_above_45_true : steps_above_45 = true.
Proof. vm_compute. reflexivity. Qed.

Lemma steps_below_45_true : steps_below_45 = true.
Proof. vm_compute. reflexivity. Qed.

Lemma in_whole_covers (x0 x : Z) (n : nat) :
  x0 <= x < x0 + Z.of_nat n -> In x (whole_covers x0 n).
Proof.
  intros Hx. unfold whole_covers. apply in_map_iff.
  exists (Z.to_nat (x - x0)). split; [lia|]. apply in_seq. lia.
Qed.

Lemma forallb_In {A} (f : A -> bool) (l : list A) (x : A) :
  forallb f l = true -> In x l -> f x = true.
Proof. intros H. apply (proj1 (forallb_forall f l) H). Qed.

Lemma cloudTerm_whole_rank (x : Z) :
  -5 <= x <= 95 ->
  wf (cloudTerm (of_Z x)) /\ rank (cloudTerm (of_Z x)) = cloudR (x * ONE).
Proof.
  intros Hx.
  destruct (of_Z_props x) as [W [R F]].
  { assert (2 ^ 53 = 9007199254740992) by reflexivity. lia. }
  rewrite <- R. apply cloudTerm_props; assumption.
Qed.

Lemma cloudR_step_up (x : Z) :
  45 <= x < 95 -> cloudR ((x + 1) * ONE) < cloudR (x * ONE).
Proof.
  intros Hx.
  destruct (cloudTerm_whole_rank x ltac:(lia)) as [W1 R1].
  destruct (cloudTerm_whole_rank (x + 1) ltac:(lia)) as [W2 R2].
  rewrite <- R1, <- R2. apply (num_lt_rank _ _ W2 W1).
  apply (forallb_In _ _ x steps_above_45_true).
  apply in_whole_covers. lia.
Qed.

Lemma cloudR_step_down (x : Z) :
  -5 < x <= 45 -> cloudR ((x - 1) * ONE) < cloudR (x * ONE).
Proof.
  intros Hx.
  destruct (cloudTerm_whole_rank x ltac:(lia)) as [W1 R1].
  destruct (cloudTerm_whole_rank (x - 1) ltac:(lia)) as [W2 R2].
  rewrite <- R1, <- R2. apply (num_lt_rank _ _ W2 W1).
  apply (forallb_In _ _ x steps_below_45_true).
  apply in_whole_covers. lia.
Qed.

Lemma cloudR_chain_up (n : nat) (x : Z) :
  45 <= x -> x + Z.of_nat n < 95 ->
  cloudR ((x + Z.of_nat n + 1) * ONE) < cloudR (x * ONE).
Proof.
  induction n as [|n IH]; intros Hx Hn.
  - rewrite Z.add_0_r. apply cloudR_step_up. lia.
  - pose proof (IH Hx ltac:(lia)) as H1.
    pose proof (cloudR_step_up (x + Z.of_nat n + 1) ltac:(lia)) as H2.
    replace (x + Z.of_nat (S n) + 1) with (x + Z.of_nat n + 1 + 1) by lia. lia.
Qed.

Lemma cloudR_chain_down (n : nat) (x : Z) :
  x <= 45 -> -5 < x - Z.of_nat n ->
  cloudR ((x - Z.of_nat n - 1) * ONE) < cloudR (x * ONE).
Proof.
  induction n as [|n IH]; intros Hx Hn.
  - rewrite Z.sub_0_r. apply cloudR_step_down. lia.
  - pose proof (IH Hx ltac:(lia)) as H1.
    pose proof (cloudR_step_down (x - Z.of_nat n - 1) ltac:(lia)) as H2.
    replace (x - Z.of_nat (S n) - 1) with (x - Z.of_nat n - 1 - 1) by lia. lia.
Qed.

Lemma cloudTerm_strict_whole (x y : Z) :
  further_from_45 x y = true ->
  num_lt (cloudTerm (of_Z y)) (cloudTerm (of_Z x)) = true.
Proof.
  intros H.
  assert (Hr : 45 <= x < y /\ y <= 95 \/ -5 <= y < x /\ x <= 45).
  { unfold further_from_45 in H.
    apply orb_true_iff in H. destruct H as [H|H];
      apply andb_true_iff in H; destruct H as [H H3];
      apply andb_true_iff in H; destruct H as [H1 H2]; lia. }
  destruct (cloudTerm_whole_rank x ltac:(lia)) as [W1 R1].
  destruct (cloudTerm_whole_rank y ltac:(lia)) as [W2 R2].
  apply (num_lt_rank _ _ W2 W1). rewrite R1, R2.
  destruct Hr as [Hr|Hr].
  - pose proof (cloudR_chain_up (Z.to_nat (y - x - 1)) x ltac:(lia) ltac:(lia)) as Hc.
    replace (x + Z.of_nat (Z.to_nat (y - x - 1)) + 1) with y in Hc by lia. exact Hc.
  - pose proof (cloudR_chain_down (Z.to_nat (x - y - 1)) x ltac:(lia) ltac:(lia)) as Hc.
    replace (x - Z.of_nat (Z.to_nat (x - y - 1)) - 1) with y in Hc by lia. exact Hc.
Qed.

Lemma cloudTerm_equal_on_neighbouring_doubles :
  binary64 (S754_finite false 6333186975989761 (-47)) /\
  binary64 (S754_finite false 6333186975989762 (-47)) /\
  num_lt (of_Z 45) (S754_finite false 6333186975989761 (-47)) = true /\
  num_lt (S754_finite false 6333186975989761 (-47))
         (S754_finite false 6333186975989762 (-47)) = true /\
  cloudTerm (S754_finite false 6333186975989761 (-47)) =
  cloudTerm (S754_finite false 6333186975989762 (-47)) /\
  num_lt (of_Z 0) (cloudTerm (S754_finite false 6333186975989761 (-47))) = true.
Proof. vm_compute. repeat split. Qed.

(* for the largest finite number the product (pm - 12) * 2 overflows to
   +Infinity; the enclosing max (0, 30 - Infinity) is 0 all the same *)
Example pm_product_overflow :
  num_mul (Math_max (of_Z 0)
             (num_sub (S754_finite false 9007199254740991 971) (of_Z 12)))
          (of_Z 2) = S754_infinity false /\
  pmTerm (S754_finite false 9007199254740991 971) = of_Z 0.
Proof. vm_compute. repeat split. Qed.

Lemma cloudR_anti (ra rb : Z) :
  45 * ONE <= ra <= rb \/ rb <= ra <= 45 * ONE ->
  cloudR rb <= cloudR ra.
Proof.
  intros H. unfold cloudR. apply termR_anti.
  pose proof (Rnd_mono (45 * ONE - rb) (45 * ONE - ra)) as M1.
  pose proof (Rnd_mono (45 * ONE - ra) (45 * ONE - rb)) as M2.
  pose proof (Rnd_mono (45 * ONE - ra) 0) as Z1.
  pose proof (Rnd_mono 0 (45 * ONE - ra)) as Z2.
  rewrite Rnd_0 in Z1, Z2.
  destruct H as [H|H]; lia.
Qed.

Lemma excessR_mono (k r1 r2 : Z) :
  r1 <= r2 -> 0 <= Z.max 0 (Rnd (r1 - k)) <= Z.max 0 (Rnd (r2 - k)).
Proof.
  intros H. pose proof (Rnd_mono (r1 - k) (r2 - k) ltac:(lia)). lia.
Qed.

Lemma humidityR_anti (r1 r2 : Z) : r1 <= r2 -> humidityR r2 <= humidityR r1.
Proof. intros H. unfold humidityR. apply termR_anti. apply excessR_mono. exact H. Qed.

Lemma pmR_anti (r1 r2 : Z) : r1 <= r2 -> pmR r2 <= pmR r1.
Proof. intros H. unfold pmR. apply termR_anti. apply excessR_mono. exact H. Qed.

Lemma cloudTerm_monotone (a b : number) :
  binary64 a -> binary64 b ->
  Number_isFinite a = true -> Number_isFinite b = true ->
  same_side a b = true ->
  num_le (cloudTerm b) (cloudTerm a) = true.
Proof.
  intros Va Vb Fa Fb Hs.
  pose proof (finite_wf a Va Fa) as Wa. pose proof (finite_wf b Vb Fb) as Wb.
  destruct (of_Z_props 45 ltac:(reflexivity)) as [W45 [R45 _]].
  destruct (cloudTerm_props a Wa Fa) as [Wta Rta].
  destruct (cloudTerm_props b Wb Fb) as [Wtb Rtb].
  apply (num_le_rank _ _ Wtb Wta). rewrite Rta, Rtb. apply cloudR_anti.
  unfold same_side in Hs. apply orb_true_iff in Hs.
  destruct Hs as [Hs|Hs]; apply andb_true_iff in Hs; destruct Hs as [H1 H2].
  - apply (num_le_rank _ _ W45 Wa) in H1. apply (num_le_rank _ _ Wa Wb) in H2.
    rewrite R45 in H1. left. lia.
  - apply (num_le_rank _ _ Wb Wa) in H1. apply (num_le_rank _ _ Wa W45) in H2.
    rewrite R45 in H2. right. lia.
Qed.

Lemma humidityTerm_monotone (h1 h2 : number) :
  binary64 h1 -> binary64 h2 ->
  Number_isFinite h1 = true -> Number_isFinite h2 = true ->
  num_le h1 h2 = true ->
  num_le (humidityTerm h2) (humidityTerm h1) = true.
Proof.
  intros V1 V2 F1 F2 Hle.
  pose proof (finite_wf h1 V1 F1) as W1. pose proof (finite_wf h2 V2 F2) as W2.
  destruct (humidityTerm_props h1 W1 F1) as [Wt1 Rt1].
  destruct (humidityTerm_props h2 W2 F2) as [Wt2 Rt2].
  apply (num_le_rank _ _ Wt2 Wt1). rewrite Rt1, Rt2. apply humidityR_anti.
  apply (num_le_rank _ _ W1 W2). exact Hle.
Qed.

Lemma pmTerm_monotone (p1 p2 : number) :
  binary64 p1 -> binary64 p2 ->
  Number_isFinite p1 = true -> Number_isFinite p2 = true ->
  num_le p1 p2 = true ->
  num_le (pmTerm p2) (pmTerm p1) = true.
Proof.
  intros V1 V2 F1 F2 Hle.
  pose proof (finite_wf p1 V1 F1) as W1. pose proof (finite_wf p2 V2 F2) as W2.
  destruct (pmTerm_props p1 W1 F1) as [Wt1 Rt1].
  destruct (pmTerm_props p2 W2 F2) as [Wt2 Rt2].
  apply (num_le_rank _ _ Wt2 Wt1). rewrite Rt1, Rt2. apply pmR_anti.
  apply (num_le_rank _ _ W1 W2). exact Hle.
Qed.

Lemma score_range (p : Predicted) :
  valid_reading p ->
  Number_isFinite (rawScore p) = true /\
  exists z : Z, 15 <= z <= 100 /\ clampScore (rawScore p) = of_Z z.
Proof.
  intros Hp. destruct (rawScore_props p Hp) as [W B].
  pose proof (scaled_finite _ 15 100 W B ltac:(reflexivity) ltac:(reflexivity)) as F.
  split; [exact F|].
  exists (clamp100 (nearest_int (rawScore p))). split.
  - pose proof (nearest_int_bounds _ 15 100 W F B). unfold clamp100. lia.
  - apply clampScore_finite; assumption.
Qed.

(** ** The claims of the specification *)

(** C1: for finite inputs the value handed to clampScore is
    cloudTerm + humidityTerm + pmTerm + 15 with the three floored terms of the
    specification, in the arithmetic of JavaScript numbers. *)
Theorem raw_score_formula (c h p : number) :
  Number_isFinite c = true -> Number_isFinite h = true -> Number_isFinite p = true ->
  rawScore (reading c h p) = spec_rawScore c h p /\
  calculateSunsetScore (Some (reading c h p)) = Some (clampScore (spec_rawScore c h p)).
Proof.
  intros Fc Fh Fp.
  assert (E : rawScore (reading c h p) = spec_rawScore c h p).
  { unfold rawScore, reading. cbn [cloudCover_pct humidity_pct pm25_ugm3 toFiniteNumber].
    rewrite Fc, Fh, Fp. reflexivity. }
  split; [exact E|]. cbn [calculateSunsetScore]. rewrite E. reflexivity.
Qed.

Lemma raw_score_formula_witness :
  (Number_isFinite (of_Z 42) = true /\ Number_isFinite (of_Z 68) = true /\
   Number_isFinite (decimal 74 10) = true) /\
  rawScore (reading (of_Z 42) (of_Z 68) (decimal 74 10)) =
    spec_rawScore (of_Z 42) (of_Z 68) (decimal 74 10) /\
  calculateSunsetScore (Some (reading (of_Z 42) (of_Z 68) (decimal 74 10))) =
    Some (clampScore (spec_rawScore (of_Z 42) (of_Z 68) (decimal 74 10))).
Proof.
  split; [repeat split; reflexivity|].
  apply (raw_score_formula (of_Z 42) (of_Z 68) (decimal 74 10)); reflexivity.
Defined.

(** C2: for every reading whose fields are absent, null or any binary64 value
    (NaN and the infinities included), calculateSunsetScore on the present
    object returns an integer between 0 and 100. *)
Theorem score_is_integer_0_100 (p : Predicted) :
  valid_reading p ->
  exists z : Z, 0 <= z <= 100 /\ calculateSunsetScore (Some p) = Some (of_Z z).
Proof.
  intros Hp. destruct (score_range p Hp) as [_ [z [Hz E]]].
  exists z. split; [lia|]. cbn [calculateSunsetScore]. rewrite E. reflexivity.
Qed.

Lemma score_is_integer_0_100_witness :
  valid_reading {| cloudCover_pct := Num S754_nan;
                   humidity_pct := Null;
                   pm25_ugm3 := Num (S754_infinity false) |} /\
  exists z : Z, 0 <= z <= 100 /\
    calculateSunsetScore (Some {| cloudCover_pct := Num S754_nan;
                                  humidity_pct := Null;
                                  pm25_ugm3 := Num (S754_infinity false) |}) =
    Some (of_Z z).
Proof.
  assert (H : valid_reading {| cloudCover_pct := Num S754_nan;
                               humidity_pct := Null;
                               pm25_ugm3 := Num (S754_infinity false) |}).
  { repeat split. }
  split; [exact H|]. exact (score_is_integer_0_100 _ H).
Defined.

(** C3: an absent, null or non-finite field is replaced by the fallback, a
    finite one is passed through unchanged, and scoring with an unusable field
    equals scoring with that field set to 60 (cloud cover), 65 (humidity) or
    12 (PM2.5), whatever the other two fields are. *)
Theorem fallback_substitution (f g1 g2 : field) (v fb : number) :
  unusable f -> Number_isFinite v = true ->
  toFiniteNumber f fb = fb /\
  toFiniteNumber (Num v) fb = v /\
  calculateSunsetScore (Some {| cloudCover_pct := f; humidity_pct := g1; pm25_ugm3 := g2 |}) =
  calculateSunsetScore (Some {| cloudCover_pct := Num (of_Z 60); humidity_pct := g1; pm25_ugm3 := g2 |}) /\
  calculateSunsetScore (Some {| cloudCover_pct := g1; humidity_pct := f; pm25_ugm3 := g2 |}) =
  calculateSunsetScore (Some {| cloudCover_pct := g1; humidity_pct := Num (of_Z 65); pm25_ugm3 := g2 |}) /\
  calculateSunsetScore (Some {| cloudCover_pct := g1; humidity_pct := g2; pm25_ugm3 := f |}) =
  calculateSunsetScore (Some {| cloudCover_pct := g1; humidity_pct := g2; pm25_ugm3 := Num (of_Z 12) |}).
Proof.
  intros Hf Fv.
  assert (E : forall fb', toFiniteNumber f fb' = fb').
  { intros fb'. destruct f as [| |w]; cbn [toFiniteNumber]; try reflexivity.
    cbn [unusable] in Hf. rewrite Hf. reflexivity. }
  split; [apply E|]. split; [cbn [toFiniteNumber]; rewrite Fv; reflexivity|].
  unfold calculateSunsetScore, rawScore.
  cbn [cloudCover_pct humidity_pct pm25_ugm3]. rewrite !E.
  repeat split; reflexivity.
Qed.

Lemma fallback_substitution_witness :
  (unusable (Num S754_nan) /\ Number_isFinite (of_Z (-7)) = true) /\
  toFiniteNumber (Num S754_nan) (of_Z 60) = of_Z 60 /\
  toFiniteNumber (Num (of_Z (-7))) (of_Z 60) = of_Z (-7) /\
  calculateSunsetScore (Some {| cloudCover_pct := Num S754_nan; humidity_pct := Num (of_Z 50); pm25_ugm3 := Num (of_Z 5) |}) =
  calculateSunsetScore (Some {| cloudCover_pct := Num (of_Z 60); humidity_pct := Num (of_Z 50); pm25_ugm3 := Num (of_Z 5) |}) /\
  calculateSunsetScore (Some {| cloudCover_pct := Num (of_Z 50); humidity_pct := Num S754_nan; pm25_ugm3 := Num (of_Z 5) |}) =
  calculateSunsetScore (Some {| cloudCover_pct := Num (of_Z 50); humidity_pct := Num (of_Z 65); pm25_ugm3 := Num (of_Z 5) |}) /\
  calculateSunsetScore (Some {| cloudCover_pct := Num (of_Z 50); humidity_pct := Num (of_Z 5); pm25_ugm3 := Num S754_nan |}) =
  calculateSunsetScore (Some {| cloudCover_pct := Num (of_Z 50); humidity_pct := Num (of_Z 5); pm25_ugm3 := Num (of_Z 12) |}).
Proof.
  split; [split; reflexivity|].
  apply (fallback_substitution (Num S754_nan) (Num (of_Z 50)) (Num (of_Z 5)) (of_Z (-7)) (of_Z 60));
    reflexivity.
Defined.

(** C4: clampScore sends a non-finite value to 0; a finite value is rounded to
    the nearest integer, a tie going up, and the result is clamped to
    [0, 100]; with all three fields absent the inputs are normalized to
    (60, 65, 12), the raw score is 84.5 and the final score is 85. *)
Theorem clampScore_rounds_half_up (v w : number) :
  Number_isFinite v = false ->
  binary64 w -> Number_isFinite w = true ->
  clampScore v = of_Z 0 /\
  (exists z : Z, nearest_half_up w z /\ clampScore w = of_Z (Z.max 0 (Z.min 100 z))) /\
  (toFiniteNumber (cloudCover_pct all_absent) (of_Z 60) = of_Z 60 /\
   toFiniteNumber (humidity_pct all_absent) (of_Z 65) = of_Z 65 /\
   toFiniteNumber (pm25_ugm3 all_absent) (of_Z 12) = of_Z 12) /\
  rawScore all_absent = decimal 845 10 /\
  calculateSunsetScore (Some all_absent) = Some (of_Z 85).
Proof.
  intros Fv Vw Fw.
  split; [apply clampScore_not_finite; exact Fv|].
  split.
  - exists (nearest_int w). split; [apply nearest_int_half_up|].
    apply (clampScore_finite w (finite_wf w Vw Fw) Fw).
  - split; [repeat split|]. split; vm_compute; reflexivity.
Qed.

Lemma clampScore_rounds_half_up_witness :
  (Number_isFinite S754_nan = false /\ binary64 (decimal 845 10) /\
   Number_isFinite (decimal 845 10) = true) /\
  clampScore S754_nan = of_Z 0 /\
  (exists z : Z, nearest_half_up (decimal 845 10) z /\
                 clampScore (decimal 845 10) = of_Z (Z.max 0 (Z.min 100 z))) /\
  (toFiniteNumber (cloudCover_pct all_absent) (of_Z 60) = of_Z 60 /\
   toFiniteNumber (humidity_pct all_absent) (of_Z 65) = of_Z 65 /\
   toFiniteNumber (pm25_ugm3 all_absent) (of_Z 12) = of_Z 12) /\
  rawScore all_absent = decimal 845 10 /\
  calculateSunsetScore (Some all_absent) = Some (of_Z 85).
Proof.
  split; [repeat split; reflexivity|].
  apply (clampScore_rounds_half_up S754_nan (decimal 845 10)); reflexivity.
Defined.

(** C5 (claim as stated fails): with the predicted object absent the function
    returns null, which is not an integer score. *)
Lemma absent_prediction_has_no_score :
  ~ (exists z : Z, calculateSunsetScore None = Some (of_Z z)).
Proof. intros [z H]. discriminate H. Qed.

(** C5 (amended): the function is total and never fails; it returns null
    exactly when the predicted object is absent, and an integer score
    between 0 and 100 whenever the object is present. *)
Theorem score_total (input : option Predicted) :
  valid_input input ->
  (input = None /\ calculateSunsetScore input = None) \/
  (exists (p : Predicted) (z : Z),
      input = Some p /\ 0 <= z <= 100 /\ calculateSunsetScore input = Some (of_Z z)).
Proof.
  intros H. destruct input as [p|].
  - right. destruct (score_range p H) as [_ [z [Hz E]]].
    exists p, z. split; [reflexivity|]. split; [lia|].
    cbn [calculateSunsetScore]. rewrite E. reflexivity.
  - left. split; reflexivity.
Qed.

Lemma score_total_witness :
  valid_input (Some all_absent) /\
  ((Some all_absent = None /\ calculateSunsetScore (Some all_absent) = None) \/
   (exists (p : Predicted) (z : Z),
      Some all_absent = Some p /\ 0 <= z <= 100 /\
      calculateSunsetScore (Some all_absent) = Some (of_Z z))).
Proof.
  assert (H : valid_input (Some all_absent)) by (repeat split).
  split; [exact H|]. exact (score_total (Some all_absent) H).
Defined.

(** C6 (claim as stated fails): 100 and 101 lie on the same side of 45 and
    101 is further away, yet both cloud terms are 0. *)
Lemma cloudTerm_floor_not_strict :
  num_le (of_Z 45) (of_Z 100) = true /\ num_lt (of_Z 100) (of_Z 101) = true /\
  num_lt (cloudTerm (of_Z 101)) (cloudTerm (of_Z 100)) = false.
Proof. vm_compute. repeat split. Qed.

(** C6 (amended): on one side of 45 the cloud term never increases as the
    cover moves away from 45, and between whole-number covers from -5 to 95
    it strictly decreases. *)
Theorem cloudTerm_decreases_away_from_45 (a b : number) (x y : Z) :
  binary64 a -> binary64 b ->
  Number_isFinite a = true -> Number_isFinite b = true ->
  same_side a b = true ->
  further_from_45 x y = true ->
  num_le (cloudTerm b) (cloudTerm a) = true /\
  num_lt (cloudTerm (of_Z y)) (cloudTerm (of_Z x)) = true.
Proof.
  intros Va Vb Fa Fb Hs Hxy. split.
  - apply cloudTerm_monotone; assumption.
  - apply cloudTerm_strict_whole; assumption.
Qed.

Lemma cloudTerm_decreases_away_from_45_witness :
  (binary64 (of_Z 100) /\ binary64 (of_Z 101) /\
   Number_isFinite (of_Z 100) = true /\ Number_isFinite (of_Z 101) = true /\
   same_side (of_Z 100) (of_Z 101) = true /\ further_from_45 60 61 = true) /\
  num_le (cloudTerm (of_Z 101)) (cloudTerm (of_Z 100)) = true /\
  num_lt (cloudTerm (of_Z 61)) (cloudTerm (of_Z 60)) = true.
Proof.
  split; [repeat split; reflexivity|].
  apply (cloudTerm_decreases_away_from_45 (of_Z 100) (of_Z 101) 60 61); reflexivity.
Defined.

(** C7: above 55 a larger humidity never gives a larger humidity term, and
    above 12 a larger PM2.5 never gives a larger PM term. *)
Theorem humidity_and_pm_terms_non_increasing (h1 h2 p1 p2 : number) :
  binary64 h1 -> binary64 h2 -> binary64 p1 -> binary64 p2 ->
  Number_isFinite h1 = true -> Number_isFinite h2 = true ->
  Number_isFinite p1 = true -> Number_isFinite p2 = true ->
  num_lt (of_Z 55) h1 = true -> num_le h1 h2 = true ->
  num_lt (of_Z 12) p1 = true -> num_le p1 p2 = true ->
  num_le (humidityTerm h2) (humidityTerm h1) = true /\
  num_le (pmTerm p2) (pmTerm p1) = true.
Proof.
  intros Vh1 Vh2 Vp1 Vp2 Fh1 Fh2 Fp1 Fp2 _ Hh _ Hp. split.
  - apply humidityTerm_monotone; assumption.
  - apply pmTerm_monotone; assumption.
Qed.

Lemma humidity_and_pm_terms_non_increasing_witness :
  (binary64 (of_Z 60) /\ binary64 (of_Z 68) /\ binary64 (of_Z 13) /\ binary64 (of_Z 20) /\
   Number_isFinite (of_Z 60) = true /\ Number_isFinite (of_Z 68) = true /\
   Number_isFinite (of_Z 13) = true /\ Number_isFinite (of_Z 20) = true /\
   num_lt (of_Z 55) (of_Z 60) = true /\ num_le (of_Z 60) (of_Z 68) = true /\
   num_lt (of_Z 12) (of_Z 13) = true /\ num_le (of_Z 13) (of_Z 20) = true) /\
  num_le (humidityTerm (of_Z 68)) (humidityTerm (of_Z 60)) = true /\
  num_le (pmTerm (of_Z 20)) (pmTerm (of_Z 13)) = true.
Proof.
  split; [repeat split; reflexivity|].
  apply (humidity_and_pm_terms_non_increasing (of_Z 60) (of_Z 68) (of_Z 13) (of_Z 20));
    reflexivity.
Defined.

(** C8: the three documented test vectors: (45, 50, 10) scores 100;
    (42, 68, 7.4) has raw score 91.4 and scores 91; (100, 100, 100) has raw
    score 15 and scores 15. *)
Theorem documented_vectors :
  calculateSunsetScore (Some (reading (of_Z 45) (of_Z 50) (of_Z 10))) = Some (of_Z 100) /\
  rawScore (reading (of_Z 42) (of_Z 68) (decimal 74 10)) = decimal 914 10 /\
  calculateSunsetScore (Some (reading (of_Z 42) (of_Z 68) (decimal 74 10))) = Some (of_Z 91) /\
  rawScore (reading (of_Z 100) (of_Z 100) (of_Z 100)) = of_Z 15 /\
  calculateSunsetScore (Some (reading (of_Z 100) (of_Z 100) (of_Z 100))) = Some (of_Z 15).
Proof. repeat split; vm_compute; reflexivity. Qed.

(** C9: with the predicted object present the score lies between 15 and 100:
    each term lies between 0 and its cap (35, 20, 30) and 15 is added. *)
Theorem score_at_least_15 (p : Predicted) :
  valid_reading p ->
  let clouds := toFiniteNumber (cloudCover_pct p) (of_Z 60) in
  let humidity := toFiniteNumber (humidity_pct p) (of_Z 65) in
  let pm := toFiniteNumber (pm25_ugm3 p) (of_Z 12) in
  (exists z : Z, 15 <= z <= 100 /\ calculateSunsetScore (Some p) = Some (of_Z z)) /\
  (num_le (of_Z 0) (cloudTerm clouds) = true /\ num_le (cloudTerm clouds) (of_Z 35) = true) /\
  (num_le (of_Z 0) (humidityTerm humidity) = true /\
   num_le (humidityTerm humidity) (of_Z 20) = true) /\
  (num_le (of_Z 0) (pmTerm pm) = true /\ num_le (pmTerm pm) (of_Z 30) = true).
Proof.
  intros Hp clouds humidity pm.
  split.
  { destruct (score_range p Hp) as [_ [z [Hz E]]].
    exists z. split; [exact Hz|]. cbn [calculateSunsetScore]. rewrite E. reflexivity. }
  destruct Hp as [Vc [Vh Vp]].
  destruct (toFiniteNumber_props _ 60 Vc ltac:(reflexivity)) as [Wc Fc].
  destruct (toFiniteNumber_props _ 65 Vh ltac:(reflexivity)) as [Wh Fh].
  destruct (toFiniteNumber_props _ 12 Vp ltac:(reflexivity)) as [Wp Fp].
  fold clouds in Wc, Fc. fold humidity in Wh, Fh. fold pm in Wp, Fp.
  destruct (cloudTerm_props clouds Wc Fc) as [W1 R1].
  destruct (humidityTerm_props humidity Wh Fh) as [W2 R2].
  destruct (pmTerm_props pm Wp Fp) as [W3 R3].
  pose proof (termR_bounds 35 m0_7 (-53) ltac:(split; [lia|reflexivity])
                (Z.abs (Rnd (45 * ONE - rank clouds))) (Z.abs_nonneg _)) as B1.
  pose proof (termR_bounds 20 m0_5 (-53) ltac:(split; [lia|reflexivity])
                (Z.max 0 (Rnd (rank humidity - 55 * ONE))) ltac:(lia)) as B2.
  pose proof (termR_bounds 30 m2 (-51) ltac:(split; [lia|reflexivity])
                (Z.max 0 (Rnd (rank pm - 12 * ONE))) ltac:(lia)) as B3.
  fold (cloudR (rank clouds)) in B1. fold (humidityR (rank humidity)) in B2.
  fold (pmR (rank pm)) in B3. rewrite <- R1 in B1. rewrite <- R2 in B2. rewrite <- R3 in B3.
  destruct (of_Z_props 0 ltac:(reflexivity)) as [W0 [R0 _]].
  destruct (of_Z_props 35 ltac:(reflexivity)) as [W35 [R35 _]].
  destruct (of_Z_props 20 ltac:(reflexivity)) as [W20 [R20 _]].
  destruct (of_Z_props 30 ltac:(reflexivity)) as [W30 [R30 _]].
  repeat split;
    match goal with
    | |- num_le ?x ?y = true =>
        apply num_le_rank; try assumption; rewrite ?R0, ?R35, ?R20, ?R30; lia
    end.
Qed.

Lemma score_at_least_15_witness :
  valid_reading (reading (of_Z 100) (of_Z 100) (of_Z 100)) /\
  (exists z : Z, 15 <= z <= 100 /\
     calculateSunsetScore (Some (reading (of_Z 100) (of_Z 100) (of_Z 100))) = Some (of_Z z)).
Proof.
  assert (H : valid_reading (reading (of_Z 100) (of_Z 100) (of_Z 100)))
    by (repeat split; reflexivity).
  split; [exact H|].
  exact (proj1 (score_at_least_15 (reading (of_Z 100) (of_Z 100) (of_Z 100)) H)).
Defined.

(** C10: with the predicted object present the three normalized operands and
    the value passed to clampScore are finite, so clampScore never takes its
    branch for non-finite arguments on this path. *)
Theorem raw_score_always_finite (p : Predicted) :
  valid_reading p ->
  Number_isFinite (toFiniteNumber (cloudCover_pct p) (of_Z 60)) = true /\
  Number_isFinite (toFiniteNumber (humidity_pct p) (of_Z 65)) = true /\
  Number_isFinite (toFiniteNumber (pm25_ugm3 p) (of_Z 12)) = true /\
  Number_isFinite (rawScore p) = true /\
  clampScore (rawScore p) =
    Math_max (of_Z 0) (Math_min (of_Z 100) (Math_round (rawScore p))).
Proof.
  intros Hp. destruct (score_range p Hp) as [F _].
  destruct Hp as [Vc [Vh Vp]].
  destruct (toFiniteNumber_props _ 60 Vc ltac:(reflexivity)) as [_ Fc].
  destruct (toFiniteNumber_props _ 65 Vh ltac:(reflexivity)) as [_ Fh].
  destruct (toFiniteNumber_props _ 12 Vp ltac:(reflexivity)) as [_ Fp].
  repeat split; try assumption.
  unfold clampScore. rewrite F. reflexivity.
Qed.

Lemma raw_score_always_finite_witness :
  valid_reading {| cloudCover_pct := Num (S754_infinity true);
                   humidity_pct := Absent;
                   pm25_ugm3 := Num (of_Z 1000) |} /\
  Number_isFinite (rawScore {| cloudCover_pct := Num (S754_infinity true);
                               humidity_pct := Absent;
                               pm25_ugm3 := Num (of_Z 1000) |}) = true.
Proof.
  assert (H : valid_reading {| cloudCover_pct := Num (S754_infinity true);
                               humidity_pct := Absent;
                               pm25_ugm3 := Num (of_Z 1000) |})
    by (repeat split; reflexivity).
  split; [exact H|].
  exact (proj1 (proj2 (proj2 (proj2 (raw_score_always_finite _ H))))).
Defined.

(** * Further properties of the component *)

(** ** The displayed score *)

Lemma nearest_int_of_Z (z : Z) : Z.abs z < 2 ^ 53 -> nearest_int (of_Z z) = z.
Proof.
  intros Hz. destruct (of_Z_props z Hz) as [W [R F]].
  pose proof (nearest_int_bounds (of_Z z) z z W F ltac:(rewrite R; lia)). lia.
Qed.

Lemma small_int (z : Z) : 0 <= z <= 100 -> Z.abs z < 2 ^ 53.
Proof.
  intros H. assert (2 ^ 53 = 9007199254740992) by reflexivity. lia.
Qed.

Lemma clampScore_of_Z (z : Z) : 0 <= z <= 100 -> clampScore (of_Z z) = of_Z z.
Proof.
  intros Hz. destruct (of_Z_props z (small_int z Hz)) as [W [R F]].
  rewrite (clampScore_finite _ W F), nearest_int_of_Z by (apply small_int; exact Hz).
  unfold clamp100. f_equal. lia.
Qed.

Lemma clampScore_range (v : number) :
  binary64 v -> exists z : Z, 0 <= z <= 100 /\ clampScore v = of_Z z.
Proof.
  intros Hv. destruct (Number_isFinite v) eqn:F.
  - exists (clamp100 (nearest_int v)). split; [unfold clamp100; lia|].
    apply clampScore_finite; [apply finite_wf; assumption|exact F].
  - exists 0. split; [lia|]. apply clampScore_not_finite. exact F.
Qed.

(** X1: clamping a clamped score changes nothing. *)
Theorem clampScore_idempotent (v : number) :
  binary64 v -> clampScore (clampScore v) = clampScore v.
Proof.
  intros Hv. destruct (clampScore_range v Hv) as [z [Hz E]].
  rewrite E. apply clampScore_of_Z. exact Hz.
Qed.

Lemma clampScore_idempotent_witness :
  binary64 (decimal 845 10) /\
  clampScore (clampScore (decimal 845 10)) = clampScore (decimal 845 10).
Proof.
  split; [reflexivity|]. apply (clampScore_idempotent (decimal 845 10)). reflexivity.
Defined.

(** X2: when the forecast gave a score, the displayed score is that
    score: the second clamp leaves it as it is, whatever [score] holds. *)
Theorem displayScore_keeps_forecast_score (p : Predicted) (score : number) :
  valid_reading p ->
  Some (displayScore (calculateSunsetScore (Some p)) score) =
  calculateSunsetScore (Some p).
Proof.
  intros Hp. destruct (score_range p Hp) as [_ [z [Hz E]]].
  cbn [calculateSunsetScore]. unfold displayScore. cbn [nullish_or].
  rewrite E. f_equal. apply clampScore_of_Z. lia.
Qed.

Lemma displayScore_keeps_forecast_score_witness :
  valid_reading all_absent /\
  Some (displayScore (calculateSunsetScore (Some all_absent)) (of_Z 50)) =
  calculateSunsetScore (Some all_absent).
Proof.
  assert (H : valid_reading all_absent) by (repeat split).
  split; [exact H|]. exact (displayScore_keeps_forecast_score all_absent (of_Z 50) H).
Defined.

(** X3: the displayed score is an integer between 0 and 100 in every state
    of the component, and without a forecast score it is the clamped [score]. *)
Theorem displayScore_in_range (input : option Predicted) (score : number) :
  valid_input input -> binary64 score ->
  (exists z : Z, 0 <= z <= 100 /\
     displayScore (calculateSunsetScore input) score = of_Z z) /\
  (input = None -> displayScore (calculateSunsetScore input) score = clampScore score).
Proof.
  intros Hi Hs. split.
  - destruct input as [p|]; cbn [calculateSunsetScore]; unfold displayScore; cbn [nullish_or].
    + destruct (score_range p Hi) as [_ [z [Hz E]]].
      exists z. split; [lia|]. rewrite E. apply clampScore_of_Z. lia.
    + apply clampScore_range. exact Hs.
  - intros ->. reflexivity.
Qed.

Lemma displayScore_in_range_witness :
  (valid_input None /\ binary64 S754_nan) /\
  exists z : Z, 0 <= z <= 100 /\
    displayScore (calculateSunsetScore None) S754_nan = of_Z z.
Proof.
  split; [split; reflexivity|].
  exact (proj1 (displayScore_in_range None S754_nan I eq_refl)).
Defined.

Lemma Math_round_zero (s : bool) :
  Math_min (of_Z 100) (Math_max (of_Z 0) (S754_zero s)) = of_Z 0.
Proof. destruct s; vm_compute; reflexivity. Qed.

Lemma nextScore_finite (v : number) :
  binary64 v -> Number_isFinite v = true -> nextScore (Num v) = clampScore v.
Proof.
  intros Vv Fv. pose proof (finite_wf v Vv Fv) as Hv.
  rewrite (clampScore_finite v Hv Fv). unfold nextScore.
  destruct v as [s|s| |s m e]; try discriminate.
  - cbn [Math_round nearest_int]. apply Math_round_zero.
  - cbn [Math_round nearest_int].
    destruct (rank_finite_bound _ _ _ (wf_finite_valid _ _ _ Hv)) as [Hex [Hm Hr]].
    destruct (of_Z_props 100 ltac:(reflexivity)) as [W100 [R100 _]].
    destruct (of_Z_props 0 ltac:(reflexivity)) as [W0 [R0 _]].
    destruct (Z.leb_spec 0 e) as [He|He].
    + unfold round_half_up. replace (0 <=? e) with true by (symmetry; apply Z.leb_le; lia).
      assert (Hd : Zpos (digits2_pos m) = 53).
      { pose proof (proj1 (valid_finite_iff s m e) (wf_finite_valid _ _ _ Hv)) as [Hc _].
        unfold fexp64 in Hc. lia. }
      pose proof (digits2_pos_bounds m) as [Hlo _]. rewrite Hd in Hlo.
      change (53 - 1) with 52 in Hlo.
      assert (H52 : 2 ^ 52 = 4503599627370496) by reflexivity. rewrite H52 in Hlo.
      pose proof (pow2_pos e He) as Hpe.
      pose proof ONE_pos as Hp.
      assert (Hbig : 100 * ONE < Zpos m * 2 ^ (e + 1074)).
      { rewrite pow2_ONE_above by lia.
        assert (4503599627370496 <= Zpos m * 2 ^ e) by nia.
        rewrite Z.mul_assoc. apply Z.lt_le_trans with (4503599627370496 * ONE); [lia|].
        apply Z.mul_le_mono_nonneg_r; lia. }
      destruct s; cbn [cond_Zopp].
      * unfold Math_max at 1. rewrite (SFcompare_rank _ _ W0 Hv), R0. cbn [rank cond_Zopp].
        replace (_ ?= _) with Gt by (symmetry; apply Z.compare_gt_iff; lia).
        rewrite Math_min_of_Z by reflexivity.
        unfold clamp100. f_equal. nia.
      * unfold Math_max at 1. rewrite (SFcompare_rank _ _ W0 Hv), R0. cbn [rank cond_Zopp].
        replace (_ ?= _) with Lt by (symmetry; apply Z.compare_lt_iff; lia).
        unfold Math_min. rewrite (SFcompare_rank _ _ W100 Hv), R100. cbn [rank cond_Zopp].
        replace (_ ?= _) with Lt by (symmetry; apply Z.compare_lt_iff; lia).
        unfold clamp100. f_equal. nia.
    + pose proof (round_half_up_small s m e Hm He) as Hz.
      replace (0 <=? e) with false by (symmetry; apply Z.leb_gt; lia).
      cbv zeta. destruct (Z.eqb_spec (round_half_up s m e) 0) as [E0|E0].
      * rewrite E0. apply Math_round_zero.
      * rewrite Math_max_of_Z by (try reflexivity; assumption).
        rewrite Math_min_of_Z; [unfold clamp100; f_equal; lia|reflexivity|].
        assert (2 ^ 53 = 9007199254740992) by reflexivity. lia.
Qed.

(** X4: the clamp written inline for the sunset-index score agrees with
    clampScore on finite values and differs on the others: NaN stays NaN and
    +Infinity becomes 100, where clampScore gives 0; the displayed score is
    in range all the same. *)
Theorem nextScore_vs_clampScore (v : number) :
  binary64 v ->
  (Number_isFinite v = true -> nextScore (Num v) = clampScore v) /\
  (nextScore (Num S754_nan) = S754_nan /\ clampScore S754_nan = of_Z 0) /\
  (nextScore (Num (S754_infinity false)) = of_Z 100 /\
   clampScore (S754_infinity false) = of_Z 0) /\
  (nextScore (Num (S754_infinity true)) = of_Z 0 /\
   clampScore (S754_infinity true) = of_Z 0) /\
  (exists z : Z, 0 <= z <= 100 /\ displayScore None (nextScore (Num v)) = of_Z z).
Proof.
  intros Hv. split; [apply nextScore_finite; exact Hv|].
  split; [split; vm_compute; reflexivity|].
  split; [split; vm_compute; reflexivity|].
  split; [split; vm_compute; reflexivity|].
  unfold displayScore. cbn [nullish_or]. apply clampScore_range.
  destruct (Number_isFinite v) eqn:F.
  - rewrite (nextScore_finite v Hv F).
    destruct (clampScore_range v Hv) as [z [Hz E]]. rewrite E.
    apply (of_Z_props z (small_int z Hz)).
  - destruct v as [s|[|]| |s m e]; try discriminate; vm_compute; reflexivity.
Qed.

Lemma nextScore_vs_clampScore_witness :
  binary64 (decimal 845 10) /\
  nextScore (Num (decimal 845 10)) = clampScore (decimal 845 10).
Proof.
  split; [reflexivity|].
  exact (proj1 (nextScore_vs_clampScore (decimal 845 10) eq_refl) eq_refl).
Defined.

(** ** Plateaus and floors of the terms *)

Lemma Math_max_zero_nonpos (x : number) :
  wf x -> rank x <= 0 -> Math_max (of_Z 0) x = of_Z 0.
Proof.
  intros Hx Hr. destruct (of_Z_props 0 ltac:(reflexivity)) as [W0 [R0 _]].
  unfold Math_max. rewrite (SFcompare_rank _ _ W0 Hx), R0.
  change (0 * ONE) with 0.
  destruct (Z.compare_spec 0 (rank x)); try lia; reflexivity.
Qed.

Lemma Math_max_zero_rank0 (x : number) :
  wf x -> rank (Math_max (of_Z 0) x) = 0 -> Math_max (of_Z 0) x = of_Z 0.
Proof.
  intros Hx H0. destruct (of_Z_props 0 ltac:(reflexivity)) as [W0 [R0 _]].
  destruct (Math_max_props _ _ W0 Hx) as [_ R]. rewrite R, R0 in H0.
  change (0 * ONE) with 0 in H0. apply Math_max_zero_nonpos; [assumption|lia].
Qed.

Lemma excess_zero (x : number) (z : Z) :
  wf x -> Number_isFinite x = true -> 0 <= z < 2 ^ 53 ->
  rank x <= z * ONE ->
  Math_max (of_Z 0) (num_sub x (of_Z z)) = of_Z 0.
Proof.
  intros Hx Fx Hz Hr.
  destruct (of_Z_props z ltac:(rewrite Z.abs_eq; lia)) as [Wz [Rz Fz]].
  destruct (SFsub_props _ _ Hx Wz Fx Fz) as [Ws Rs]. rewrite Rz in Rs.
  apply Math_max_zero_nonpos; [exact Ws|].
  unfold num_sub. rewrite Rs.
  pose proof (Rnd_mono (rank x - z * ONE) 0 ltac:(lia)) as H. rewrite Rnd_0 in H. exact H.
Qed.

Lemma humidityTerm_full (h : number) :
  binary64 h -> Number_isFinite h = true -> num_le h (of_Z 55) = true ->
  humidityTerm h = of_Z 20.
Proof.
  intros Vh Fh Hle. pose proof (finite_wf h Vh Fh) as Wh.
  destruct (of_Z_props 55 ltac:(reflexivity)) as [W55 [R55 _]].
  apply (num_le_rank _ _ Wh W55) in Hle. rewrite R55 in Hle.
  unfold humidityTerm.
  rewrite (excess_zero h 55 Wh Fh ltac:(split; [lia|reflexivity]) Hle).
  vm_compute. reflexivity.
Qed.

Lemma pmTerm_full (p : number) :
  binary64 p -> Number_isFinite p = true -> num_le p (of_Z 12) = true ->
  pmTerm p = of_Z 30.
Proof.
  intros Vp Fp Hle. pose proof (finite_wf p Vp Fp) as Wp.
  destruct (of_Z_props 12 ltac:(reflexivity)) as [W12 [R12 _]].
  apply (num_le_rank _ _ Wp W12) in Hle. rewrite R12 in Hle.
  unfold pmTerm.
  rewrite (excess_zero p 12 Wp Fp ltac:(split; [lia|reflexivity]) Hle).
  vm_compute. reflexivity.
Qed.

(** X5: humidity at or below 55 and PM2.5 at or below 12 earn the full 20
    and 30 points and no more, so they do not change the score; with cloud
    cover 45 the score is 100. *)
Theorem clean_dry_air_plateau (c h p : number) :
  binary64 h -> binary64 p ->
  Number_isFinite c = true -> Number_isFinite h = true -> Number_isFinite p = true ->
  num_le h (of_Z 55) = true -> num_le p (of_Z 12) = true ->
  humidityTerm h = of_Z 20 /\ pmTerm p = of_Z 30 /\
  calculateSunsetScore (Some (reading c h p)) =
  calculateSunsetScore (Some (reading c (of_Z 55) (of_Z 12))) /\
  calculateSunsetScore (Some (reading (of_Z 45) h p)) = Some (of_Z 100).
Proof.
  intros Vh Vp Fc Fh Fp Hh Hp.
  pose proof (humidityTerm_full h Vh Fh Hh) as E1.
  pose proof (pmTerm_full p Vp Fp Hp) as E2.
  split; [exact E1|]. split; [exact E2|].
  unfold calculateSunsetScore, rawScore, reading.
  cbn [cloudCover_pct humidity_pct pm25_ugm3 toFiniteNumber].
  rewrite Fc, Fh, Fp, E1, E2. split; [|vm_compute; reflexivity].
  change (Number_isFinite (of_Z 55)) with true.
  change (Number_isFinite (of_Z 12)) with true. cbv iota.
  replace (humidityTerm (of_Z 55)) with (of_Z 20) by (vm_compute; reflexivity).
  replace (pmTerm (of_Z 12)) with (of_Z 30) by (vm_compute; reflexivity).
  reflexivity.
Qed.

Lemma clean_dry_air_plateau_witness :
  (binary64 (of_Z 40) /\ binary64 (of_Z 5) /\
   Number_isFinite (of_Z 60) = true /\ Number_isFinite (of_Z 40) = true /\
   Number_isFinite (of_Z 5) = true /\
   num_le (of_Z 40) (of_Z 55) = true /\ num_le (of_Z 5) (of_Z 12) = true) /\
  calculateSunsetScore (Some (reading (of_Z 60) (of_Z 40) (of_Z 5))) =
  calculateSunsetScore (Some (reading (of_Z 60) (of_Z 55) (of_Z 12))).
Proof.
  split; [repeat split; reflexivity|].
  apply (clean_dry_air_plateau (of_Z 60) (of_Z 40) (of_Z 5)); reflexivity.
Defined.

Lemma cloudR_95 : cloudR (95 * ONE) = 0.
Proof.
  destruct (cloudTerm_whole_rank 95 ltac:(lia)) as [_ R]. rewrite <- R.
  vm_compute. reflexivity.
Qed.

Lemma cloudR_m5 : cloudR (-5 * ONE) = 0.
Proof.
  destruct (cloudTerm_whole_rank (-5) ltac:(lia)) as [_ R]. rewrite <- R.
  vm_compute. reflexivity.
Qed.

Lemma cloudR_nonneg (r : Z) : 0 <= cloudR r.
Proof. unfold cloudR, termR. lia. Qed.

Lemma term_floor (C : Z) (mc : positive) (ec : Z) (X : number) :
  0 <= C < 2 ^ 53 ->
  wf X -> Number_isFinite X = true -> 0 <= rank X ->
  valid_binary prec emax (S754_finite false mc ec) = true ->
  Zpos (digits2_pos mc) = 53 ->
  termR C mc ec (rank X) = 0 ->
  Math_max (of_Z 0) (num_sub (of_Z C) (num_mul X (S754_finite false mc ec))) = of_Z 0.
Proof.
  intros HC WX FX RX Vc Dc H0.
  destruct (term_props C mc ec HC X WX FX RX Vc Dc) as [_ R].
  destruct (SFmul_pos_props X mc ec WX FX RX Vc Dc) as [Wm _].
  destruct (of_Z_props C ltac:(rewrite Z.abs_eq; lia)) as [WC [_ FC]].
  destruct (SFsub_ext_props (of_Z C) _ WC Wm FC) as [Ws _].
  apply Math_max_zero_rank0; [exact Ws|]. rewrite R. exact H0.
Qed.

Lemma humidityR_95 : humidityR (95 * ONE) = 0.
Proof.
  destruct (of_Z_props 95 ltac:(reflexivity)) as [W [R F]].
  destruct (humidityTerm_props (of_Z 95) W F) as [_ Rt]. rewrite R in Rt.
  rewrite <- Rt. vm_compute. reflexivity.
Qed.

Lemma pmR_27 : pmR (27 * ONE) = 0.
Proof.
  destruct (of_Z_props 27 ltac:(reflexivity)) as [W [R F]].
  destruct (pmTerm_props (of_Z 27) W F) as [_ Rt]. rewrite R in Rt.
  rewrite <- Rt. vm_compute. reflexivity.
Qed.

Lemma termR_nonneg (C : Z) (mc : positive) (ec r : Z) : 0 <= termR C mc ec r.
Proof. unfold termR. lia. Qed.

Lemma cloudTerm_floor (c : number) :
  binary64 c -> Number_isFinite c = true -> cloud_at_floor c = true ->
  cloudTerm c = of_Z 0.
Proof.
  intros Vc Fc H. pose proof (finite_wf c Vc Fc) as Wc.
  destruct (of_Z_props 95 ltac:(reflexivity)) as [W95 [R95 _]].
  destruct (of_Z_props (-5) ltac:(reflexivity)) as [Wm5 [Rm5 _]].
  pose proof (cloudR_nonneg (rank c)) as Hn. pose proof ONE_pos.
  assert (Hz : cloudR (rank c) = 0).
  { unfold cloud_at_floor in H. apply orb_true_iff in H. destruct H as [H|H].
    - apply (num_le_rank _ _ W95 Wc) in H. rewrite R95 in H.
      pose proof (cloudR_anti (95 * ONE) (rank c) ltac:(left; lia)) as Ha.
      rewrite cloudR_95 in Ha. lia.
    - apply (num_le_rank _ _ Wc Wm5) in H. rewrite Rm5 in H.
      pose proof (cloudR_anti (-5 * ONE) (rank c) ltac:(right; lia)) as Ha.
      rewrite cloudR_m5 in Ha. lia. }
  destruct (cloud_distance_props c Wc Fc) as [WX [FX RX]].
  unfold cloudTerm. rewrite decimal_7_10.
  apply term_floor; try assumption; try reflexivity.
  - split; [lia|reflexivity].
  - rewrite RX. apply Z.abs_nonneg.
  - rewrite RX. exact Hz.
Qed.

Lemma humidityTerm_floor (h : number) :
  binary64 h -> Number_isFinite h = true -> num_le (of_Z 95) h = true ->
  humidityTerm h = of_Z 0.
Proof.
  intros Vh Fh H. pose proof (finite_wf h Vh Fh) as Wh.
  destruct (of_Z_props 95 ltac:(reflexivity)) as [W95 [R95 _]].
  apply (num_le_rank _ _ W95 Wh) in H. rewrite R95 in H.
  pose proof (humidityR_anti (95 * ONE) (rank h) H) as Ha. rewrite humidityR_95 in Ha.
  pose proof (termR_nonneg 20 m0_5 (-53) (Z.max 0 (Rnd (rank h - 55 * ONE)))) as Hn.
  fold (humidityR (rank h)) in Hn.
  destruct (excess_props h 55 Wh Fh ltac:(split; [lia|reflexivity])) as [WX [FX [RX PX]]].
  unfold humidityTerm. rewrite decimal_5_10.
  apply term_floor; try assumption; try reflexivity.
  - split; [lia|reflexivity].
  - rewrite RX. change (humidityR (rank h) = 0). lia.
Qed.

Lemma pmTerm_floor (p : number) :
  binary64 p -> Number_isFinite p = true -> num_le (of_Z 27) p = true ->
  pmTerm p = of_Z 0.
Proof.
  intros Vp Fp H. pose proof (finite_wf p Vp Fp) as Wp.
  destruct (of_Z_props 27 ltac:(reflexivity)) as [W27 [R27 _]].
  apply (num_le_rank _ _ W27 Wp) in H. rewrite R27 in H.
  pose proof (pmR_anti (27 * ONE) (rank p) H) as Ha. rewrite pmR_27 in Ha.
  pose proof (termR_nonneg 30 m2 (-51) (Z.max 0 (Rnd (rank p - 12 * ONE)))) as Hn.
  fold (pmR (rank p)) in Hn.
  destruct (excess_props p 12 Wp Fp ltac:(split; [lia|reflexivity])) as [WX [FX [RX PX]]].
  unfold pmTerm. rewrite of_Z_2.
  apply term_floor; try assumption; try reflexivity.
  - split; [lia|reflexivity].
  - rewrite RX. change (pmR (rank p) = 0). lia.
Qed.

(** X6: with cloud cover at least 95 (or at most -5), humidity at least 95
    and PM2.5 at least 27 the three terms are 0 and the score is 15. *)
Theorem score_floor_is_15 (c h p : number) :
  binary64 c -> binary64 h -> binary64 p ->
  Number_isFinite c = true -> Number_isFinite h = true -> Number_isFinite p = true ->
  cloud_at_floor c = true -> num_le (of_Z 95) h = true -> num_le (of_Z 27) p = true ->
  cloudTerm c = of_Z 0 /\ humidityTerm h = of_Z 0 /\ pmTerm p = of_Z 0 /\
  calculateSunsetScore (Some (reading c h p)) = Some (of_Z 15).
Proof.
  intros Vc Vh Vp Fc Fh Fp Hc Hh Hp.
  pose proof (cloudTerm_floor c Vc Fc Hc) as E1.
  pose proof (humidityTerm_floor h Vh Fh Hh) as E2.
  pose proof (pmTerm_floor p Vp Fp Hp) as E3.
  repeat split; try assumption.
  unfold calculateSunsetScore, rawScore, reading.
  cbn [cloudCover_pct humidity_pct pm25_ugm3 toFiniteNumber].
  rewrite Fc, Fh, Fp, E1, E2, E3. vm_compute. reflexivity.
Qed.

Lemma score_floor_is_15_witness :
  (binary64 (of_Z 120) /\ binary64 (of_Z 99) /\ binary64 (of_Z 40) /\
   Number_isFinite (of_Z 120) = true /\ Number_isFinite (of_Z 99) = true /\
   Number_isFinite (of_Z 40) = true /\
   cloud_at_floor (of_Z 120) = true /\ num_le (of_Z 95) (of_Z 99) = true /\
   num_le (of_Z 27) (of_Z 40) = true) /\
  calculateSunsetScore (Some (reading (of_Z 120) (of_Z 99) (of_Z 40))) = Some (of_Z 15).
Proof.
  split; [repeat split; reflexivity|].
  apply (score_floor_is_15 (of_Z 120) (of_Z 99) (of_Z 40)); reflexivity.
Defined.

(** ** Symmetry and monotonicity of the score *)

Lemma rank_inj_pos (x y : number) :
  wf x -> wf y -> 0 < rank x -> rank x = rank y -> x = y.
Proof.
  intros [Vx Nx] [Vy Ny] Hp He. pose proof TOP_pos.
  destruct x as [sx|sx| |sx mx ex]; try congruence; cbn [rank] in Hp; try lia;
  destruct y as [sy|sy| |sy my ey]; try congruence; cbn [rank] in He;
  try (pose proof (rank_finite_bound _ _ _ Vx) as [_ [_ Bx]]);
  try (pose proof (rank_finite_bound _ _ _ Vy) as [_ [_ By]]);
  destruct sx; cbn [cond_Zopp] in *; try lia; destruct sy; cbn [cond_Zopp] in *; try lia.
  - reflexivity.
  - pose proof (compare_finite_same_sign mx my ex ey Vx Vy) as Hc.
    rewrite He, Z.compare_refl in Hc.
    destruct (Z.compare_spec ex ey) as [E|E|E]; try discriminate.
    subst ey. symmetry in Hc. rewrite Pos.compare_cont_spec in Hc.
    destruct (mx ?= my)%positive eqn:Hm; try discriminate.
    apply Pos.compare_eq in Hm. subst my. reflexivity.
Qed.

Lemma max0_rank_inj (y1 y2 : number) :
  wf y1 -> wf y2 ->
  rank (Math_max (of_Z 0) y1) = rank (Math_max (of_Z 0) y2) ->
  Math_max (of_Z 0) y1 = Math_max (of_Z 0) y2.
Proof.
  intros W1 W2 He.
  destruct (of_Z_props 0 ltac:(reflexivity)) as [W0 [R0 _]].
  destruct (Math_max_props _ _ W0 W1) as [Wm1 R1].
  destruct (Math_max_props _ _ W0 W2) as [Wm2 R2].
  rewrite R0 in R1, R2. change (0 * ONE) with 0 in R1, R2.
  destruct (Z_le_gt_dec (rank (Math_max (of_Z 0) y1)) 0) as [Hz|Hp].
  - rewrite (Math_max_zero_nonpos y1 W1 ltac:(lia)).
    rewrite (Math_max_zero_nonpos y2 W2 ltac:(lia)). reflexivity.
  - apply rank_inj_pos; try assumption. lia.
Qed.

Lemma cloudTerm_congr (a b : number) :
  wf a -> wf b -> Number_isFinite a = true -> Number_isFinite b = true ->
  cloudR (rank a) = cloudR (rank b) -> cloudTerm a = cloudTerm b.
Proof.
  intros Wa Wb Fa Fb He.
  destruct (cloudTerm_props a Wa Fa) as [_ Ra].
  destruct (cloudTerm_props b Wb Fb) as [_ Rb].
  destruct (of_Z_props 35 ltac:(reflexivity)) as [W35 [_ F35]].
  destruct (cloud_distance_props a Wa Fa) as [WXa [FXa RXa]].
  destruct (cloud_distance_props b Wb Fb) as [WXb [FXb RXb]].
  destruct (SFmul_pos_props _ m0_7 (-53) WXa FXa ltac:(rewrite RXa; apply Z.abs_nonneg)
              ltac:(reflexivity) ltac:(reflexivity)) as [Wma _].
  destruct (SFmul_pos_props _ m0_7 (-53) WXb FXb ltac:(rewrite RXb; apply Z.abs_nonneg)
              ltac:(reflexivity) ltac:(reflexivity)) as [Wmb _].
  destruct (SFsub_ext_props (of_Z 35) _ W35 Wma F35) as [Wsa _].
  destruct (SFsub_ext_props (of_Z 35) _ W35 Wmb F35) as [Wsb _].
  unfold cloudTerm in *. rewrite decimal_7_10 in *.
  apply max0_rank_inj; try assumption. rewrite Ra, Rb. exact He.
Qed.

(** X7: whole-number cloud covers at the same distance on either side of
    45 have the same cloud term. *)
Theorem cloudTerm_symmetric_about_45 (d : Z) :
  Z.abs d < 2 ^ 52 ->
  cloudTerm (of_Z (45 + d)) = cloudTerm (of_Z (45 - d)).
Proof.
  intros Hd.
  assert (H52 : 2 ^ 52 = 4503599627370496) by reflexivity.
  assert (H53 : 2 ^ 53 = 9007199254740992) by reflexivity.
  destruct (of_Z_props (45 + d) ltac:(lia)) as [W1 [R1 F1]].
  destruct (of_Z_props (45 - d) ltac:(lia)) as [W2 [R2 F2]].
  apply cloudTerm_congr; try assumption.
  rewrite R1, R2. unfold cloudR. f_equal.
  replace (45 * ONE - (45 + d) * ONE) with (- (d * ONE)) by lia.
  replace (45 * ONE - (45 - d) * ONE) with (d * ONE) by lia.
  rewrite Rnd_opp. lia.
Qed.

Lemma cloudTerm_symmetric_about_45_witness :
  Z.abs 10 < 2 ^ 52 /\ cloudTerm (of_Z (45 + 10)) = cloudTerm (of_Z (45 - 10)).
Proof.
  split; [reflexivity|]. apply (cloudTerm_symmetric_about_45 10). reflexivity.
Defined.

Lemma nearest_int_rank (v : number) :
  wf v -> Number_isFinite v = true ->
  2 * nearest_int v * ONE <= 2 * rank v + ONE < 2 * (nearest_int v + 1) * ONE.
Proof.
  intros [Vv Nv] Fv. pose proof ONE_pos as Hp.
  destruct v as [s|s| |s m e]; try discriminate; cbn [nearest_int rank].
  - lia.
  - destruct (rank_finite_bound _ _ _ Vv) as [Hex _].
    unfold round_half_up.
    rewrite <- (cond_Zopp_mul s (Zpos m) (2 ^ (e + 1074))).
    destruct (Z.leb_spec 0 e) as [He|He].
    + rewrite pow2_ONE_above by lia.
      rewrite <- (cond_Zopp_mul s (Zpos m) (2 ^ e)).
      set (M := cond_Zopp s (Zpos m)). set (P := 2 ^ e). lia.
    + set (k := - e) in *. assert (Hk : 1 <= k) by lia.
      replace (1 - e) with (k + 1) by lia.
      pose proof (pow2_pos k ltac:(lia)) as Hpk.
      assert (E : 2 ^ (k + 1) = 2 * 2 ^ k)
        by (rewrite Z.pow_add_r by lia; change (2 ^ 1) with 2; lia).
      assert (E2 : ONE = 2 ^ (e + 1074) * 2 ^ k) by (apply pow2_ONE_below; lia).
      pose proof (pow2_pos (e + 1074) ltac:(lia)) as Hpe.
      set (M := cond_Zopp s (Zpos m)) in *.
      pose proof (Z.mul_div_le (2 * M + 2 ^ k) (2 ^ (k + 1)) ltac:(lia)) as H1.
      pose proof (Z.mul_succ_div_gt (2 * M + 2 ^ k) (2 ^ (k + 1)) ltac:(lia)) as H2.
      set (z := (2 * M + 2 ^ k) / 2 ^ (k + 1)) in *.
      rewrite E in H1, H2. rewrite E2.
      set (P := 2 ^ (e + 1074)) in *. set (K := 2 ^ k) in *. clearbody P K z M.
      split; nia.
Qed.

Lemma nearest_int_mono (v1 v2 : number) :
  wf v1 -> wf v2 -> Number_isFinite v1 = true -> Number_isFinite v2 = true ->
  rank v1 <= rank v2 -> nearest_int v1 <= nearest_int v2.
Proof.
  intros W1 W2 F1 F2 H.
  pose proof (nearest_int_rank v1 W1 F1) as [A1 _].
  pose proof (nearest_int_rank v2 W2 F2) as [_ B2].
  pose proof ONE_pos. nia.
Qed.

Lemma rawScore_rank (c h p : number) :
  binary64 c -> binary64 h -> binary64 p ->
  Number_isFinite c = true -> Number_isFinite h = true -> Number_isFinite p = true ->
  wf (rawScore (reading c h p)) /\
  Number_isFinite (rawScore (reading c h p)) = true /\
  rank (rawScore (reading c h p)) = rawR (rank c) (rank h) (rank p).
Proof.
  intros Vc Vh Vp Fc Fh Fp.
  pose proof (finite_wf c Vc Fc) as Wc. pose proof (finite_wf h Vh Fh) as Wh.
  pose proof (finite_wf p Vp Fp) as Wp.
  assert (Hv : valid_reading (reading c h p)) by (repeat split; assumption).
  destruct (rawScore_props _ Hv) as [W B].
  pose proof (scaled_finite _ 15 100 W B ltac:(reflexivity) ltac:(reflexivity)) as F.
  split; [exact W|]. split; [exact F|].
  unfold rawScore, reading in *.
  cbn [cloudCover_pct humidity_pct pm25_ugm3 toFiniteNumber] in *.
  rewrite Fc, Fh, Fp in *.
  destruct (cloudTerm_props c Wc Fc) as [W1 R1].
  destruct (humidityTerm_props h Wh Fh) as [W2 R2].
  destruct (pmTerm_props p Wp Fp) as [W3 R3].
  pose proof (termR_bounds 35 m0_7 (-53) ltac:(split; [lia|reflexivity])
                (Z.abs (Rnd (45 * ONE - rank c))) (Z.abs_nonneg _)) as B1.
  pose proof (termR_bounds 20 m0_5 (-53) ltac:(split; [lia|reflexivity])
                (Z.max 0 (Rnd (rank h - 55 * ONE))) ltac:(lia)) as B2.
  pose proof (termR_bounds 30 m2 (-51) ltac:(split; [lia|reflexivity])
                (Z.max 0 (Rnd (rank p - 12 * ONE))) ltac:(lia)) as B3.
  fold (cloudR (rank c)) in B1. fold (humidityR (rank h)) in B2. fold (pmR (rank p)) in B3.
  rewrite <- R1 in B1. rewrite <- R2 in B2. rewrite <- R3 in B3.
  destruct (of_Z_props 15 ltac:(reflexivity)) as [W15 [R15 F15]].
  pose proof (scaled_finite _ 0 35 W1 B1 ltac:(reflexivity) ltac:(reflexivity)) as F1.
  pose proof (scaled_finite _ 0 20 W2 B2 ltac:(reflexivity) ltac:(reflexivity)) as F2.
  pose proof (scaled_finite _ 0 30 W3 B3 ltac:(reflexivity) ltac:(reflexivity)) as F3.
  destruct (add_bounds _ _ 0 35 0 20 W1 W2 B1 B2) as [W12 B12]; try reflexivity.
  pose proof (scaled_finite _ _ _ W12 B12 ltac:(reflexivity) ltac:(reflexivity)) as F12.
  destruct (add_bounds _ _ 0 55 0 30 W12 W3 B12 B3) as [W123 B123]; try reflexivity.
  pose proof (scaled_finite _ _ _ W123 B123 ltac:(reflexivity) ltac:(reflexivity)) as F123.
  destruct (SFadd_props _ _ W1 W2 F1 F2) as [_ S12].
  destruct (SFadd_props _ _ W12 W3 F12 F3) as [_ S123].
  destruct (SFadd_props _ _ W123 W15 F123 F15) as [_ S].
  unfold num_add, baseline in *. rewrite S, S123, S12, R1, R2, R3, R15. reflexivity.
Qed.

Lemma rawR_anti (ra rb h1 h2 p1 p2 : Z) :
  45 * ONE <= ra <= rb \/ rb <= ra <= 45 * ONE ->
  h1 <= h2 -> p1 <= p2 ->
  rawR rb h2 p2 <= rawR ra h1 p1.
Proof.
  intros Hc Hh Hp. unfold rawR.
  pose proof (cloudR_anti ra rb Hc). pose proof (humidityR_anti h1 h2 Hh).
  pose proof (pmR_anti p1 p2 Hp).
  apply Rnd_mono. apply Z.add_le_mono_r.
  apply Rnd_mono. apply Z.add_le_mono; [|assumption].
  apply Rnd_mono. lia.
Qed.

(** X8: moving the cloud cover away from 45 on one side, raising the
    humidity or raising PM2.5 never raises the score. *)
Theorem score_never_rises_with_worse_inputs (a b h1 h2 p1 p2 : number) :
  binary64 a -> binary64 b -> binary64 h1 -> binary64 h2 -> binary64 p1 -> binary64 p2 ->
  Number_isFinite a = true -> Number_isFinite b = true ->
  Number_isFinite h1 = true -> Number_isFinite h2 = true ->
  Number_isFinite p1 = true -> Number_isFinite p2 = true ->
  same_side a b = true -> num_le h1 h2 = true -> num_le p1 p2 = true ->
  exists s1 s2 : number,
    calculateSunsetScore (Some (reading a h1 p1)) = Some s1 /\
    calculateSunsetScore (Some (reading b h2 p2)) = Some s2 /\
    num_le s2 s1 = true.
Proof.
  intros Va Vb Vh1 Vh2 Vp1 Vp2 Fa Fb Fh1 Fh2 Fp1 Fp2 Hs Hh Hp.
  destruct (rawScore_rank a h1 p1 Va Vh1 Vp1 Fa Fh1 Fp1) as [W1 [F1 R1]].
  destruct (rawScore_rank b h2 p2 Vb Vh2 Vp2 Fb Fh2 Fp2) as [W2 [F2 R2]].
  exists (clampScore (rawScore (reading a h1 p1))), (clampScore (rawScore (reading b h2 p2))).
  split; [reflexivity|]. split; [reflexivity|].
  rewrite (clampScore_finite _ W1 F1), (clampScore_finite _ W2 F2).
  pose proof (finite_wf a Va Fa) as Wa. pose proof (finite_wf b Vb Fb) as Wb.
  destruct (of_Z_props 45 ltac:(reflexivity)) as [W45 [R45 _]].
  assert (Hc : 45 * ONE <= rank a <= rank b \/ rank b <= rank a <= 45 * ONE).
  { unfold same_side in Hs. apply orb_true_iff in Hs.
    destruct Hs as [Hs|Hs]; apply andb_true_iff in Hs; destruct Hs as [H1 H2].
    - apply (num_le_rank _ _ W45 Wa) in H1. apply (num_le_rank _ _ Wa Wb) in H2.
      rewrite R45 in H1. left. lia.
    - apply (num_le_rank _ _ Wb Wa) in H1. apply (num_le_rank _ _ Wa W45) in H2.
      rewrite R45 in H2. right. lia. }
  apply (num_le_rank _ _ (finite_wf h1 Vh1 Fh1) (finite_wf h2 Vh2 Fh2)) in Hh.
  apply (num_le_rank _ _ (finite_wf p1 Vp1 Fp1) (finite_wf p2 Vp2 Fp2)) in Hp.
  pose proof (rawR_anti _ _ _ _ _ _ Hc Hh Hp) as Hr. rewrite <- R1, <- R2 in Hr.
  pose proof (nearest_int_mono _ _ W2 W1 F2 F1 Hr) as Hn.
  set (z1 := clamp100 (nearest_int (rawScore (reading a h1 p1)))).
  set (z2 := clamp100 (nearest_int (rawScore (reading b h2 p2)))).
  assert (Hz : 0 <= z2 <= z1 /\ z1 <= 100) by (unfold z1, z2, clamp100; lia).
  destruct (of_Z_props z1 (small_int z1 ltac:(lia))) as [Wz1 [Rz1 _]].
  destruct (of_Z_props z2 (small_int z2 ltac:(lia))) as [Wz2 [Rz2 _]].
  apply (num_le_rank _ _ Wz2 Wz1). rewrite Rz1, Rz2. pose proof ONE_pos. nia.
Qed.

Lemma score_never_rises_with_worse_inputs_witness :
  (binary64 (of_Z 50) /\ binary64 (of_Z 60) /\ binary64 (of_Z 60) /\
   binary64 (of_Z 70) /\ binary64 (of_Z 13) /\ binary64 (of_Z 20) /\
   same_side (of_Z 50) (of_Z 60) = true /\ num_le (of_Z 60) (of_Z 70) = true /\
   num_le (of_Z 13) (of_Z 20) = true) /\
  exists s1 s2 : number,
    calculateSunsetScore (Some (reading (of_Z 50) (of_Z 60) (of_Z 13))) = Some s1 /\
    calculateSunsetScore (Some (reading (of_Z 60) (of_Z 70) (of_Z 20))) = Some s2 /\
    num_le s2 s1 = true.
Proof.
  split; [repeat split; reflexivity|].
  apply (score_never_rises_with_worse_inputs
           (of_Z 50) (of_Z 60) (of_Z 60) (of_Z 70) (of_Z 13) (of_Z 20)); reflexivity.
Defined.

(** ** Image URLs and the API base *)

Local Open Scope string_scope.

Lemma is_slash_true (c : ascii) : is_slash c = true -> c = "/"%char.
Proof. unfold is_slash. apply Ascii.eqb_eq. Qed.

Lemma strip_leading_slashes_split (s : string) :
  exists n : nat,
    s = slashes n ++ strip_leading_slashes s /\
    starts_with_slash (strip_leading_slashes s) = false.
Proof.
  induction s as [|c s IH]; cbn [strip_leading_slashes].
  - exists O. split; reflexivity.
  - destruct (is_slash c) eqn:Hc.
    + destruct IH as [n [E H]]. exists (S n). split; [|exact H].
      apply is_slash_true in Hc. subst c. cbn [slashes append]. f_equal. exact E.
    + exists O. split; [reflexivity|]. cbn [starts_with_slash]. exact Hc.
Qed.

Lemma strip_leading_slashes_slashes (n : nat) (k : string) :
  strip_leading_slashes (slashes n ++ k) = strip_leading_slashes k.
Proof.
  induction n as [|n IH]; [reflexivity|].
  cbn [slashes append strip_leading_slashes]. exact IH.
Qed.

Lemma strip_leading_slashes_fixed (k : string) :
  starts_with_slash k = false -> strip_leading_slashes k = k.
Proof.
  destruct k as [|c k]; [reflexivity|]. cbn [starts_with_slash strip_leading_slashes].
  intros ->. reflexivity.
Qed.

Lemma slashes_only (n : nat) : strip_leading_slashes (slashes n) = EmptyString.
Proof. induction n; [reflexivity|exact IHn]. Qed.

Lemma append_empty_r (s : string) : s ++ "" = s.
Proof. induction s; cbn [append]; [reflexivity|f_equal; assumption]. Qed.

Lemma is_empty_true (s : string) : is_empty s = true -> s = EmptyString.
Proof. destruct s; [reflexivity|discriminate]. Qed.

Lemma buildPublicImageUrl_some (key : option string) (u : string) :
  buildPublicImageUrl key = Some u ->
  exists s : string,
    key = Some s /\ strip_leading_slashes s <> EmptyString /\
    u = CDN_BASE_URL ++ "/" ++ strip_leading_slashes s.
Proof.
  unfold buildPublicImageUrl. destruct key as [s|]; cbn [option_map]; [|discriminate].
  destruct (is_empty (strip_leading_slashes s)) eqn:He; [discriminate|].
  intros [= <-]. exists s. split; [reflexivity|]. split; [|reflexivity].
  intros C. rewrite C in He. discriminate.
Qed.

Lemma buildPublicImageUrl_slashes (n : nat) :
  buildPublicImageUrl (Some (slashes n)) = None.
Proof.
  unfold buildPublicImageUrl. cbn [option_map]. rewrite slashes_only. reflexivity.
Qed.

(** X9: every URL buildPublicImageUrl returns is the CDN base, one "/",
    and the key without its leading slashes, which is not empty. *)
Theorem buildPublicImageUrl_shape (key : option string) (u : string) :
  buildPublicImageUrl key = Some u ->
  exists (n : nat) (k : string),
    key = Some (slashes n ++ k) /\ k <> EmptyString /\ starts_with_slash k = false /\
    u = CDN_BASE_URL ++ "/" ++ k.
Proof.
  unfold buildPublicImageUrl. destruct key as [s|]; cbn [option_map]; [|discriminate].
  destruct (strip_leading_slashes_split s) as [n [E H]].
  destruct (is_empty (strip_leading_slashes s)) eqn:He; [discriminate|].
  intros [= <-]. exists n, (strip_leading_slashes s).
  split; [f_equal; exact E|]. split; [|split; [exact H|reflexivity]].
  intros C. rewrite C in He. discriminate.
Qed.

Lemma buildPublicImageUrl_shape_witness :
  buildPublicImageUrl (Some "//cards/a.jpg") =
    Some "https://matsuesunsetai.com/cards/a.jpg" /\
  exists (n : nat) (k : string),
    Some "//cards/a.jpg" = Some (slashes n ++ k) /\ k <> EmptyString /\
    starts_with_slash k = false /\
    "https://matsuesunsetai.com/cards/a.jpg" = CDN_BASE_URL ++ "/" ++ k.
Proof.
  split; [reflexivity|].
  apply (buildPublicImageUrl_shape (Some "//cards/a.jpg")). reflexivity.
Defined.

(** X10: buildPublicImageUrl returns undefined exactly for an absent key
    and for a key made of slashes only (the empty key included). *)
Theorem buildPublicImageUrl_none_iff (key : option string) :
  buildPublicImageUrl key = None <->
  key = None \/ exists n : nat, key = Some (slashes n).
Proof.
  unfold buildPublicImageUrl. destruct key as [s|]; cbn [option_map].
  - destruct (strip_leading_slashes_split s) as [n [E H]]. split.
    + destruct (is_empty (strip_leading_slashes s)) eqn:He; [|discriminate].
      intros _. right. exists n. apply is_empty_true in He.
      rewrite He, append_empty_r in E. f_equal. exact E.
    + intros [C|[n' C]]; [discriminate|]. injection C as ->.
      rewrite slashes_only. reflexivity.
  - split; [left; reflexivity|reflexivity].
Qed.

Lemma buildPublicImageUrl_none_iff_witness :
  (exists n : nat, Some "///" = Some (slashes n)) /\
  buildPublicImageUrl (Some "///") = None.
Proof.
  assert (H : exists n : nat, Some "///" = Some (slashes n))
    by (exists 3%nat; reflexivity).
  split; [exact H|].
  exact (proj2 (buildPublicImageUrl_none_iff (Some "///")) (or_intror H)).
Defined.

(** X11: leading slashes of the key do not change the URL. *)
Theorem buildPublicImageUrl_ignores_leading_slashes (n : nat) (k : string) :
  buildPublicImageUrl (Some (slashes n ++ k)) = buildPublicImageUrl (Some k).
Proof.
  unfold buildPublicImageUrl. cbn [option_map].
  rewrite strip_leading_slashes_slashes. reflexivity.
Qed.

Section UrlKeyLemmas.

Variable URL_pathname : string -> option string.

(** X12: deriveObjectKeyFromUrl is undefined exactly for an absent or empty
    candidate; a key it returns never starts with "/", so the public URL
    built from it has a single "/" after the host. *)
Theorem deriveObjectKeyFromUrl_spec (candidate : option string) :
  (deriveObjectKeyFromUrl URL_pathname candidate = None <->
   candidate = None \/ candidate = Some EmptyString) /\
  (forall k, deriveObjectKeyFromUrl URL_pathname candidate = Some k ->
             starts_with_slash k = false /\
             buildPublicImageUrl (Some k) =
             if is_empty k then None else Some (CDN_BASE_URL ++ "/" ++ k)).
Proof.
  unfold deriveObjectKeyFromUrl. split.
  - destruct candidate as [c|]; [|split; [left; reflexivity|reflexivity]].
    destruct c as [|a c]; cbn [is_empty].
    + split; [right; reflexivity|reflexivity].
    + split.
      * destruct (URL_pathname (String a c)); discriminate.
      * intros [C|C]; discriminate.
  - intros k Hk.
    assert (Hs : starts_with_slash k = false).
    { destruct candidate as [c|]; [|discriminate].
      destruct (is_empty c); [discriminate|].
      destruct (URL_pathname c) as [p|]; injection Hk as <-;
        [destruct (strip_leading_slashes_split p) as [n [_ H]]
        |destruct (strip_leading_slashes_split c) as [n [_ H]]]; exact H. }
    split; [exact Hs|].
    unfold buildPublicImageUrl. cbn [option_map].
    rewrite (strip_leading_slashes_fixed k Hs). reflexivity.
Qed.

(** X13: whatever URLs the response carries, an image URL resolved from it
    is on the CDN host. *)
Theorem resolveImageUrl_on_cdn (result : GenerateCardResponse) (u : string) :
  resolveImageUrl URL_pathname result = Some u ->
  exists k : string,
    k <> EmptyString /\ starts_with_slash k = false /\ u = CDN_BASE_URL ++ "/" ++ k.
Proof.
  unfold resolveImageUrl. cbv zeta. intros H.
  destruct (buildPublicImageUrl_some _ _ H) as [s [_ [H1 H3]]].
  destruct (strip_leading_slashes_split s) as [n [_ H2]].
  exists (strip_leading_slashes s). repeat split; assumption.
Qed.

(** X14: an objectKey that is empty or made of slashes only yields no image
    URL, even when the response carries usable URLs: [??] does not skip it. *)
Theorem resolveImageUrl_blank_objectKey (result : GenerateCardResponse) (n : nat) :
  objectKey result = Some (slashes n) ->
  resolveImageUrl URL_pathname result = None.
Proof.
  intros H. unfold resolveImageUrl. cbv zeta. rewrite H. cbn [nullish].
  apply buildPublicImageUrl_slashes.
Qed.

(** X15: without an objectKey, an imageUrl whose path is "/" (or slashes
    only) yields no image URL, whatever cloudFrontUrl and s3Url hold. *)
Theorem resolveImageUrl_root_path_blocks_fallbacks
    (result : GenerateCardResponse) (c : string) (n : nat) :
  objectKey result = None -> imageUrl result = Some c -> c <> EmptyString ->
  URL_pathname c = Some (slashes n) ->
  resolveImageUrl URL_pathname result = None.
Proof.
  intros Hk Hi Hc Hp. unfold resolveImageUrl. cbv zeta.
  rewrite Hk, Hi. unfold deriveObjectKeyFromUrl at 1.
  destruct c as [|a c]; [congruence|]. cbn [is_empty]. rewrite Hp. cbn [nullish].
  rewrite slashes_only. reflexivity.
Qed.

End UrlKeyLemmas.

Lemma resolveImageUrl_root_path_blocks_fallbacks_witness :
  (fun c : string => if String.eqb c "https://matsuesunsetai.com/" then Some "/"
                     else Some "/cards/b.jpg") "https://matsuesunsetai.com/" =
    Some (slashes 1) /\
  resolveImageUrl
    (fun c : string => if String.eqb c "https://matsuesunsetai.com/" then Some "/"
                       else Some "/cards/b.jpg")
    {| requestId := None; imageUrl := Some "https://matsuesunsetai.com/";
       cloudFrontUrl := Some "https://d111.cloudfront.net/cards/b.jpg";
       s3Url := None; objectKey := None; sunsetJst := None |} = None.
Proof.
  split; [reflexivity|].
  apply (resolveImageUrl_root_path_blocks_fallbacks _ _ "https://matsuesunsetai.com/" 1);
    try reflexivity.
  discriminate.
Defined.

Lemma resolveImageUrl_blank_objectKey_witness :
  objectKey {| requestId := None; imageUrl := Some "https://matsuesunsetai.com/cards/b.jpg";
               cloudFrontUrl := None; s3Url := None; objectKey := Some "";
               sunsetJst := None |} = Some (slashes 0) /\
  resolveImageUrl (fun _ => Some "/cards/b.jpg")
    {| requestId := None; imageUrl := Some "https://matsuesunsetai.com/cards/b.jpg";
       cloudFrontUrl := None; s3Url := None; objectKey := Some "";
       sunsetJst := None |} = None.
Proof.
  split; [reflexivity|].
  apply (resolveImageUrl_blank_objectKey (fun _ => Some "/cards/b.jpg") _ 0). reflexivity.
Defined.

Lemma resolveImageUrl_on_cdn_witness :
  resolveImageUrl (fun _ => Some "/cards/b.jpg")
    {| requestId := None; imageUrl := Some "https://bucket.s3.amazonaws.com/cards/b.jpg";
       cloudFrontUrl := None; s3Url := None; objectKey := None; sunsetJst := None |} =
    Some "https://matsuesunsetai.com/cards/b.jpg" /\
  exists k : string,
    k <> EmptyString /\ starts_with_slash k = false /\
    "https://matsuesunsetai.com/cards/b.jpg" = CDN_BASE_URL ++ "/" ++ k.
Proof.
  split; [reflexivity|].
  apply (resolveImageUrl_on_cdn (fun _ => Some "/cards/b.jpg")
           {| requestId := None;
              imageUrl := Some "https://bucket.s3.amazonaws.com/cards/b.jpg";
              cloudFrontUrl := None; s3Url := None; objectKey := None;
              sunsetJst := None |}).
  reflexivity.
Defined.

Lemma deriveObjectKeyFromUrl_spec_witness :
  deriveObjectKeyFromUrl (fun _ => None) (Some "/cards/a.jpg") = Some "cards/a.jpg" /\
  starts_with_slash "cards/a.jpg" = false.
Proof.
  split; [reflexivity|].
  exact (proj1 (proj2 (deriveObjectKeyFromUrl_spec (fun _ => None) (Some "/cards/a.jpg"))
                 "cards/a.jpg" eq_refl)).
Defined.

Lemma strip_trailing_slash_snoc (b : string) : strip_trailing_slash (b ++ "/") = b.
Proof.
  induction b as [|c b IH]; [reflexivity|].
  cbn [append]. cbn [strip_trailing_slash].
  destruct (b ++ "/") as [|c' r] eqn:E.
  - destruct b; discriminate.
  - rewrite IH. reflexivity.
Qed.

Lemma strip_trailing_slash_fixed (s : string) :
  ends_with_slash s = false -> strip_trailing_slash s = s.
Proof.
  induction s as [|c s IH]; [reflexivity|].
  cbn [ends_with_slash strip_trailing_slash]. destruct s as [|c' s'].
  - intros ->. reflexivity.
  - intros H. rewrite (IH H). reflexivity.
Qed.

Lemma ends_with_slash_split (s : string) :
  ends_with_slash s = true -> exists b, s = b ++ "/".
Proof.
  induction s as [|c s IH]; [discriminate|].
  cbn [ends_with_slash]. destruct s as [|c' s'].
  - intros H. apply is_slash_true in H. subst c. exists EmptyString. reflexivity.
  - intros H. destruct (IH H) as [b E]. exists (String c b). cbn [append]. rewrite <- E.
    reflexivity.
Qed.

(** X16: the API base is the default when the environment value is empty,
    loses one trailing "/", and is otherwise the value itself; it is empty,
    and requireBaseUrl throws, exactly when the value is "/". *)
Theorem BASE_spec (raw b : string) :
  BASE EmptyString = DEFAULT_API_BASE /\
  BASE (b ++ "/") = b /\
  (raw <> EmptyString -> ends_with_slash raw = false -> BASE raw = raw) /\
  (requireBaseUrl (BASE raw) <> Returns <-> raw = "/") /\
  (apiMissing (BASE raw) = true <-> raw = "/").
Proof.
  assert (Hb : forall r, is_empty (BASE r) = true <-> r = "/").
  { intros r. unfold BASE. destruct (is_empty r) eqn:Hr.
    - apply is_empty_true in Hr. subst r. split; discriminate.
    - destruct (ends_with_slash r) eqn:He.
      + destruct (ends_with_slash_split r He) as [b' E]. subst r.
        rewrite strip_trailing_slash_snoc. split.
        * intros H. apply is_empty_true in H. subst b'. reflexivity.
        * intros H. destruct b' as [|c b']; [reflexivity|].
          destruct b'; discriminate.
      + rewrite (strip_trailing_slash_fixed r He). split.
        * intros H. rewrite H in Hr. discriminate.
        * intros ->. discriminate. }
  split; [reflexivity|]. split.
  { unfold BASE. destruct (b ++ "/") as [|c r] eqn:E.
    - destruct b; discriminate.
    - cbn [is_empty]. rewrite <- E. apply strip_trailing_slash_snoc. }
  split.
  { intros Hn He. unfold BASE. destruct raw as [|c r]; [congruence|].
    cbn [is_empty]. apply strip_trailing_slash_fixed. exact He. }
  split.
  - unfold requireBaseUrl. rewrite <- (Hb raw).
    destruct (is_empty (BASE raw)); split; intros H; try reflexivity; try discriminate.
    contradiction H. reflexivity.
  - unfold apiMissing. apply Hb.
Qed.

Lemma BASE_spec_witness :
  "https://api.example.com" <> EmptyString /\
  ends_with_slash "https://api.example.com" = false /\
  BASE "https://api.example.com" = "https://api.example.com" /\
  requireBaseUrl (BASE "/") <> Returns.
Proof.
  split; [discriminate|]. split; [reflexivity|]. split.
  - apply (proj1 (proj2 (proj2 (BASE_spec "https://api.example.com" "")))).
    + discriminate.
    + reflexivity.
  - apply (proj2 (proj1 (proj2 (proj2 (proj2 (BASE_spec "/" "")))))). reflexivity.
Defined.

Lemma percent_text_not_placeholder (s : string) : s ++ "%" <> "--".
Proof.
  destruct s as [|a [|b [|c s]]]; cbn [append]; intros H; try discriminate.
Qed.

(** X17: the forecast card shows the "--" placeholder for a field exactly
    when the score replaces that field by its fallback. *)
Theorem placeholder_iff_fallback
    (Number_toString : number -> string) (f : field) (fallback : number) :
  (formatPercentOrPlaceholder Number_toString f = "--" <-> unusable f) /\
  (formatPercentOrPlaceholder Number_toString f = "--" ->
   toFiniteNumber f fallback = fallback) /\
  (formatPercentOrPlaceholder Number_toString f <> "--" ->
   exists v, f = Num v /\ toFiniteNumber f fallback = v /\
             formatPercentOrPlaceholder Number_toString f =
             Number_toString (Math_round v) ++ "%").
Proof.
  assert (H : formatPercentOrPlaceholder Number_toString f = "--" <-> unusable f).
  { destruct f as [| |v]; cbn [formatPercentOrPlaceholder unusable];
      try (split; [intros _; exact I|reflexivity]).
    destruct (Number_isFinite v); split; try reflexivity; try discriminate.
    intros C. exfalso. exact (percent_text_not_placeholder _ C). }
  split; [exact H|]. split.
  - intros Hp. apply H in Hp. destruct f as [| |v]; cbn [toFiniteNumber]; try reflexivity.
    cbn [unusable] in Hp. rewrite Hp. reflexivity.
  - intros Hn. destruct f as [| |v]; cbn [formatPercentOrPlaceholder] in *;
      try (contradiction Hn; reflexivity).
    exists v. cbn [toFiniteNumber].
    destruct (Number_isFinite v); [repeat split|contradiction Hn; reflexivity].
Qed.

Lemma placeholder_iff_fallback_witness :
  unusable (Num S754_nan) /\
  formatPercentOrPlaceholder (fun _ => "0") (Num S754_nan) = "--" /\
  toFiniteNumber (Num S754_nan) (of_Z 60) = of_Z 60.
Proof.
  assert (H : formatPercentOrPlaceholder (fun _ => "0") (Num S754_nan) = "--")
    by reflexivity.
  split; [reflexivity|]. split; [exact H|].
  exact (proj1 (proj2 (placeholder_iff_fallback (fun _ => "0") (Num S754_nan) (of_Z 60))) H).
Defined.

Local Close Scope string_scope.
